(** * Connection lifecycle manager and audit-log sink

    A shallow embedding of the database utilities of the backend
    ([initializePrisma], [reconnectPrisma], [withRetry], the lazy proxy
    returned by [getPrismaClient]) and of the logger's database sink
    ([enableDatabaseLogging], [isConnectionError], [logToDatabase]).

    The program runs on a single-threaded event loop.  A synchronous run of
    code is one function of the model; a suspended asynchronous continuation
    (the body of the initialization promise, a [setImmediate] callback) is a
    separate function that is run later.  Module-level [let] variables are the
    fields of explicit state records. *)

From Stdlib Require Import ZArith String Ascii Bool Lia.
From stdpp Require Import base option list gmap.

Local Open Scope Z_scope.
Local Open Scope string_scope.

(** ** Strings *)

Module Str.

(** [String.prototype.includes]: does [needle] occur in [hay]? *)
Fixpoint includes (needle hay : string) : bool :=
  if String.prefix needle hay then true
  else match hay with
       | EmptyString => false
       | String _ rest => includes needle rest
       end.

(** [String.prototype.substring(0, n)] for [n >= 0]. *)
Definition take (n : nat) (s : string) : string := String.substring 0 n s.

End Str.

(** ** Thrown values and completions *)

(** An [Error] object, as far as the program looks at it: its message. *)
Record JsError := mkError { message : string }.

(** What a [catch] clause can receive: an instance of [Error], or any other
    thrown value. *)
Inductive Thrown :=
| ThrownError (e : JsError)
| ThrownOther (v : string).

(** A synchronous completion, or the settlement of an awaited promise. *)
Inductive Outcome (A : Type) :=
| Ok (a : A)
| Throw (x : Thrown).
Arguments Ok {A} a.
Arguments Throw {A} x.

(** [error instanceof Error ? error : new Error(fallback)] *)
Definition toError (fallback : string) (x : Thrown) : JsError :=
  match x with
  | ThrownError e => e
  | ThrownOther _ => mkError fallback
  end.

(** ** The connection supervisor *)

(** A constructed [PrismaClient]; clients are numbered in the order of their
    construction. *)
Definition Client := nat.

(** The identity of a promise created by the [async] arrow function of
    [initializePrisma]. *)
Definition PromiseId := nat.

Inductive PromiseState :=
| Pending
| Fulfilled (c : Client)
| Rejected (x : Thrown).

(** The module-level variables of the database module, the promise objects
    it has created, and what it registered with the runtime. *)
Record Supervisor := mkSupervisor {
  prismaInstance : option Client;
  initPromise : option PromiseId;
  isReconnecting : bool;
  (** the client probed by the interval timer, when a timer is set *)
  connectionCheckTimer : option Client;
  (** the promise objects; a promise that is not in the map is pending *)
  promises : gmap PromiseId PromiseState;
  nextPromise : PromiseId;
  (** number of [PrismaClient] objects constructed so far *)
  constructed : nat;
  (** the [cleanup] closures given to [process.on], by the client they close *)
  exitHandlers : list Client
}.

Definition initialSupervisor : Supervisor :=
  {| prismaInstance := None; initPromise := None; isReconnecting := false;
     connectionCheckTimer := None; promises := ∅; nextPromise := 0%nat;
     constructed := 0%nat; exitHandlers := [] |}.

Definition promiseState (s : Supervisor) (p : PromiseId) : PromiseState :=
  default Pending (promises s !! p).

(** What the environment decides for the supervisor.  The operation given
    to [withRetry] is a separate argument. *)
Record Env := mkEnv {
  (** the body of initialization promise [p]: [None] when the import of the
      client library, the parsing of [DATABASE_URL] and the constructor all
      succeed, [Some x] when one of them throws [x] *)
  init_outcome : PromiseId -> option Thrown;
  (** [client.$connect()] *)
  connect_outcome : Client -> option Thrown
}.

(** The value of a call of an [async] function that returns either a value
    or a promise it adopts. *)
Inductive Acquired :=
| Immediate (c : Client)
| Awaiting (p : PromiseId).

(** [initializePrisma()], up to its return.  The [async] arrow function runs
    up to its first [await] (of the dynamic import), so the promise it returns
    is pending when it is stored in [initPromise]. *)
Definition initializePrisma (s : Supervisor) : Acquired * Supervisor :=
  match prismaInstance s with
  | Some c => (Immediate c, s)
  | None =>
    match initPromise s with
    | Some p => (Awaiting p, s)
    | None =>
      let p := nextPromise s in
      (Awaiting p,
       {| prismaInstance := None; initPromise := Some p;
          isReconnecting := isReconnecting s;
          connectionCheckTimer := connectionCheckTimer s;
          promises := <[p := Pending]> (promises s);
          nextPromise := S p;
          constructed := constructed s;
          exitHandlers := exitHandlers s |})
    end
  end.

(** [startConnectionKeepAlive(client)]: the timer, if any, is cleared and a
    new one probing [client] is set. *)
Definition startConnectionKeepAlive (client : Client) (s : Supervisor) : Supervisor :=
  {| prismaInstance := prismaInstance s; initPromise := initPromise s;
     isReconnecting := isReconnecting s;
     connectionCheckTimer := Some client;
     promises := promises s; nextPromise := nextPromise s;
     constructed := constructed s; exitHandlers := exitHandlers s |}.

(** The rest of the [async] arrow function of [initializePrisma], after the
    [await] of the import: it has no further [await], so it runs in one turn
    and settles promise [p] with the outcome returned here. *)
Definition initBody (env : Env) (p : PromiseId) (s : Supervisor)
  : Outcome Client * Supervisor :=
  match init_outcome env p with
  | Some x =>
    (Throw x,
     {| prismaInstance := prismaInstance s; initPromise := initPromise s;
        isReconnecting := isReconnecting s;
        connectionCheckTimer := connectionCheckTimer s;
        promises := <[p := Rejected x]> (promises s);
        nextPromise := nextPromise s;
        constructed := constructed s; exitHandlers := exitHandlers s |})
  | None =>
    let client := constructed s in
    let s1 := startConnectionKeepAlive client s in
    (Ok client,
     {| prismaInstance := Some client; initPromise := initPromise s1;
        isReconnecting := isReconnecting s1;
        connectionCheckTimer := connectionCheckTimer s1;
        promises := <[p := Fulfilled client]> (promises s1);
        nextPromise := nextPromise s1;
        constructed := S client;
        exitHandlers := exitHandlers s1 ++ [client] |})
  end.

(** [await p] for an initialization promise, in a run where no other task
    interleaves: a settled promise gives its value; for a pending one the
    event loop runs the initialization body, which settles it. *)
Definition await (env : Env) (p : PromiseId) (s : Supervisor)
  : Outcome Client * Supervisor :=
  match promiseState s p with
  | Fulfilled c => (Ok c, s)
  | Rejected x => (Throw x, s)
  | Pending => initBody env p s
  end.

(** [await getPrismaClientAsync()], which is [await initializePrisma()]. *)
Definition getPrismaClientAsync (env : Env) (s : Supervisor)
  : Outcome Client * Supervisor :=
  let '(r, s1) := initializePrisma s in
  match r with
  | Immediate c => (Ok c, s1)
  | Awaiting p => await env p s1
  end.

Definition hasPrismaClient (s : Supervisor) : bool :=
  match prismaInstance s with Some _ => true | None => false end.

(** [await reconnectPrisma()].  The outcome of [$disconnect] is not an
    input: its errors are swallowed and it changes no variable. *)
Definition reconnectPrisma (env : Env) (s : Supervisor)
  : Outcome Client * Supervisor :=
  if isReconnecting s then
    (* after a timer of 1000 ms *)
    getPrismaClientAsync env s
  else
    let s1 :=
      {| prismaInstance := None; initPromise := None;
         isReconnecting := true;
         connectionCheckTimer := connectionCheckTimer s;
         promises := promises s; nextPromise := nextPromise s;
         constructed := constructed s; exitHandlers := exitHandlers s |} in
    let '(r, s2) := getPrismaClientAsync env s1 in
    let finally :=
      {| prismaInstance := prismaInstance s2; initPromise := initPromise s2;
         isReconnecting := false;
         connectionCheckTimer := connectionCheckTimer s2;
         promises := promises s2; nextPromise := nextPromise s2;
         constructed := constructed s2; exitHandlers := exitHandlers s2 |} in
    match r with
    | Throw x => (Throw x, finally)
    | Ok client =>
      match connect_outcome env client with
      | Some x => (Throw x, finally)
      | None => (Ok client, finally)
      end
    end.

(** ** The lazy proxy *)

(** A property key given to the [get] handler. *)
Inductive PropKey :=
| PString (name : string)
| PSymbol (description : string).

(** [String(prop)] *)
Definition String_of (prop : PropKey) : string :=
  match prop with
  | PString name => name
  | PSymbol description => "Symbol(" ++ description ++ ")"
  end.

(** What the handler returns: [undefined], a boolean, or the member [prop]
    of the live client. *)
Inductive JsValue :=
| VUndefined
| VBool (b : bool)
| VMember (c : Client) (prop : PropKey).

Definition isName (prop : PropKey) (name : string) : bool :=
  match prop with
  | PString n => String.eqb n name
  | PSymbol _ => false
  end.

Definition notInitializedMessage (prop : PropKey) : string :=
  "Prisma not initialized. Accessing '" ++ String_of prop ++
  "' before database is ready. Use getPrismaClientAsync() for async operations.".

(** The [get] handler of the proxy made by [createLazyProxy]. *)
Definition lazyProxy_get (s : Supervisor) (prop : PropKey) : Outcome JsValue :=
  if isName prop "_initialized" then
    Ok (VBool (match prismaInstance s with Some _ => true | None => false end))
  else if isName prop "then" || isName prop "catch" || isName prop "finally" then
    Ok VUndefined
  else
    match prismaInstance s with
    | None => Throw (ThrownError (mkError (notInitializedMessage prop)))
    | Some c => Ok (VMember c prop)
    end.

(** [getPrismaClient()]: starts the initialization when there is no client
    (a rejection of that promise is logged by the attached [catch]) and
    returns the proxy, whose reads are [lazyProxy_get]. *)
Definition getPrismaClient (s : Supervisor) : Supervisor :=
  match prismaInstance s with
  | None => snd (initializePrisma s)
  | Some _ => s
  end.

(** ** The retry executor *)

(** The constant [isConnectionError] computed in the [catch] clause of
    [withRetry]. *)
Definition isConnectionError (lastError : JsError) : bool :=
  Str.includes "Server has closed the connection" (message lastError) ||
  Str.includes "terminating connection" (message lastError) ||
  Str.includes "Connection refused" (message lastError) ||
  Str.includes "57P01" (message lastError) ||
  Str.includes "Connection pool timeout" (message lastError) ||
  Str.includes "kind: Closed" (message lastError).

(** The calls [withRetry] makes, in order: the operation (in which attempt,
    with which client), [reconnectPrisma], and the timer it waits for. *)
Inductive RetryEvent :=
| EvRun (attempt : Z) (prisma : Client)
| EvReconnect
| EvSleep (ms : Z).

Record RetryRun (T : Type) := mkRetryRun {
  result : Outcome T;
  trace : list RetryEvent;
  final : Supervisor
}.
Arguments mkRetryRun {T}.
Arguments result {T}.
Arguments trace {T}.
Arguments final {T}.

Section WithRetry.
Context {T : Type}.
Variable env : Env.
(** [operation attempt prisma]: how the promise of [operation(prisma)]
    settles when it is called in attempt number [attempt]. *)
Variable operation : Z -> Client -> Outcome T.
Variables maxRetries retryDelay : Z.

(** The [for] loop of [withRetry], entered with [attempt] and [lastError];
    [remaining] counts the values of [attempt] that are still
    [<= maxRetries]. *)
Fixpoint retryLoop (remaining : nat) (attempt : Z) (lastError : option JsError)
    (s : Supervisor) : RetryRun T :=
  match remaining with
  | O =>
    mkRetryRun
      (Throw (ThrownError
                (default (mkError "Operation failed after retries") lastError)))
      [] s
  | S remaining' =>
    let '(acquired, s1) := getPrismaClientAsync env s in
    let '(settled, ran) :=
      match acquired with
      | Ok prisma => (operation attempt prisma, [EvRun attempt prisma])
      | Throw x => (Throw x, [])
      end in
    match settled with
    | Ok v => mkRetryRun (Ok v) ran s1
    | Throw error =>
      let lastError := toError "Unknown error" error in
      if isConnectionError lastError && (attempt <? maxRetries)%Z then
        let s2 := snd (reconnectPrisma env s1) in
        let rest := retryLoop remaining' (attempt + 1) (Some lastError) s2 in
        mkRetryRun (result rest)
          (ran ++ EvReconnect :: EvSleep (retryDelay * attempt) :: trace rest)%list
          (final rest)
      else
        mkRetryRun (Throw (ThrownError lastError)) ran s1
    end
  end.

Definition withRetry (s : Supervisor) : RetryRun T :=
  retryLoop (Z.to_nat maxRetries) 1 None s.

End WithRetry.

(** How often the operation was called. *)
Fixpoint runs (tr : list RetryEvent) : nat :=
  match tr with
  | [] => 0
  | EvRun _ _ :: tr' => S (runs tr')
  | _ :: tr' => runs tr'
  end.

(** ** Asynchronous functions with [try]/[catch] *)

(** A run of code over state [S]: it completes with a value or by throwing,
    and the assignments made before a throw stay made. *)
Definition Task (S A : Type) : Type := S -> Outcome A * S.

Definition ret {S A} (a : A) : Task S A := fun s => (Ok a, s).
Definition throw {S A} (x : Thrown) : Task S A := fun s => (Throw x, s).
Definition bind {S A B} (m : Task S A) (k : A -> Task S B) : Task S B :=
  fun s => match m s with
           | (Ok a, s1) => k a s1
           | (Throw x, s1) => (Throw x, s1)
           end.
Definition getState {S} : Task S S := fun s => (Ok s, s).
Definition setState {S} (s : S) : Task S unit := fun _ => (Ok tt, s).
Definition tryCatch {S A} (body : Task S A) (handler : Thrown -> Task S A)
  : Task S A :=
  fun s => match body s with
           | (Ok a, s1) => (Ok a, s1)
           | (Throw x, s1) => handler x s1
           end.

Declare Scope task_scope.
Delimit Scope task_scope with task.
Notation "'let*' x := m 'in' k" := (bind m (fun x => k))
  (at level 10, x name, m at level 100, k at level 200) : task_scope.

(** ** The logger's database sink *)

Module Logger.

Definition isConnectionError (error : JsError) : bool :=
  let message := match message error with
                 | EmptyString => ""
                 | m => m
                 end in
  Str.includes "Server has closed the connection" message ||
  Str.includes "terminating connection" message ||
  Str.includes "Connection refused" message ||
  Str.includes "57P01" message ||
  Str.includes "Connection pool timeout" message ||
  Str.includes "kind: Closed" message ||
  Str.includes "ConnectorError" message.

Inductive LogType := info | success | error | warning | debug.

(** [LogData]; an optional field that is absent is [None], and [metadata]
    is kept as its JSON text. *)
Record LogData := mkLogData {
  userId : option Z;
  screenName : option string;
  screenUrl : option string;
  callerFunction : option string;
  buttonId : option string;
  calledApi : option string;
  backendApiUrl : option string;
  logType : LogType;
  message : option string;
  errorCode : option string;
  metadata : option string
}.

(** The [data] object given to [prisma.log.create]. *)
Module Create.
Record Input := mkInput {
  userId : option Z;
  screenName : option string;
  screenUrl : option string;
  callerFunction : option string;
  buttonId : option string;
  calledApi : option string;
  backendApiUrl : option string;
  logType : LogType;
  message : option string;
  errorCode : option string;
  metadata : string
}.
End Create.

Definition createInput (data : LogData) (validUserId : option Z) : Create.Input :=
  {| Create.userId := validUserId;
     Create.screenName := screenName data;
     Create.screenUrl := screenUrl data;
     Create.callerFunction := callerFunction data;
     Create.buttonId := buttonId data;
     Create.calledApi := calledApi data;
     Create.backendApiUrl := backendApiUrl data;
     Create.logType := logType data;
     Create.message := Str.take 5000 <$> message data;
     Create.errorCode := errorCode data;
     Create.metadata := default "{}" (metadata data) |}.

(** What the environment decides for the deferred work of the sink. *)
Record Datastore := mkDatastore {
  (** the dynamic import of the database module *)
  import_outcome : option Thrown;
  (** [client.user.findUnique] by id: the id of the row found, [null], or a
      rejection *)
  findUnique_outcome : Client -> Z -> Outcome (option Z);
  (** [client.log.create], called in attempt number [attempt] *)
  create_outcome : Create.Input -> Z -> Client -> option Thrown
}.

(** The module-level variables of the logger. *)
Record Sink := mkSink {
  dbLoggingEnabled : bool;
  dbLoggingRetryCount : Z;
  dbLoggingPaused : bool;
  dbLoggingPauseUntil : Z
}.

Definition initialSink : Sink :=
  {| dbLoggingEnabled := false; dbLoggingRetryCount := 0;
     dbLoggingPaused := false; dbLoggingPauseUntil := 0 |}.

Definition MAX_DB_LOGGING_RETRIES : Z := 3.
Definition DB_LOGGING_PAUSE_DURATION : Z := 30000.

Definition enableDatabaseLogging (b : Sink) : Sink :=
  {| dbLoggingEnabled := true; dbLoggingRetryCount := 0;
     dbLoggingPaused := false;
     dbLoggingPauseUntil := dbLoggingPauseUntil b |}.

(** [logToDatabase(data)], up to its return, with [now] the value of
    [Date.now()] in this turn.  The value is the callback it gave to
    [setImmediate], named by the [data] it closes over, if any. *)
Definition logToDatabase (data : LogData) (now : Z) : Task Sink (option LogData) :=
  (let* b := getState in
   if negb (dbLoggingEnabled b) then ret None
   else if dbLoggingPaused b && (now <? dbLoggingPauseUntil b)%Z then ret None
   else
     let* _ :=
       (if dbLoggingPaused b then
          setState {| dbLoggingEnabled := dbLoggingEnabled b;
                   dbLoggingRetryCount := 0;
                   dbLoggingPaused := false;
                   dbLoggingPauseUntil := dbLoggingPauseUntil b |}
        else ret tt) in
     let* b1 := getState in
     if (dbLoggingRetryCount b1 >=? MAX_DB_LOGGING_RETRIES)%Z then
       let* _ :=
         setState {| dbLoggingEnabled := dbLoggingEnabled b1;
                  dbLoggingRetryCount := dbLoggingRetryCount b1;
                  dbLoggingPaused := true;
                  dbLoggingPauseUntil := now + DB_LOGGING_PAUSE_DURATION |} in
       ret None
     else ret (Some data))%task.

(** The variables of both modules. *)
Record World := mkWorld { db : Supervisor; sink : Sink }.

Definition onDb {A} (f : Supervisor -> Outcome A * Supervisor) : Task World A :=
  fun w => let '(r, d) := f (db w) in (r, {| db := d; sink := sink w |}).

Definition onSink {A} (f : Task Sink A) : Task World A :=
  fun w => let '(r, b) := f (sink w) in (r, {| db := db w; sink := b |}).

Section Deferred.
Variable env : Env.
Variable ds : Datastore.
Variable data : LogData.

(** [getPrismaClient().user.findUnique(...)] and the test of its result:
    the value of [validUserId]. *)
Definition lookupUser (uid : Z) : Task World (option Z) :=
  (let* _ := onDb (fun d => (Ok tt, getPrismaClient d)) in
   onDb (fun d =>
     (match lazyProxy_get d (PString "user") with
      | Throw x => Throw x
      | Ok (VMember prisma _) => findUnique_outcome ds prisma uid
      | Ok _ =>
        Throw (ThrownError (mkError
          "Cannot read properties of undefined (reading 'findUnique')"))
      end, d)))%task.

(** The value of [validUserId] after the [if (data.userId)] statement; a
    [userId] that is absent or [0] is falsy. *)
Definition resolveUserId : Task World (option Z) :=
  match userId data with
  | Some uid => if (uid =? 0)%Z then ret None else lookupUser uid
  | None => ret None
  end.

(** The operation given to [withRetry]. *)
Definition createLog (validUserId : option Z) (attempt : Z) (prisma : Client)
  : Outcome unit :=
  match create_outcome ds (createInput data validUserId) attempt prisma with
  | None => Ok tt
  | Some x => Throw x
  end.

(** The [try] block of the callback. *)
Definition persist : Task World unit :=
  (let* _ := (match import_outcome ds with
              | Some x => throw x
              | None => ret tt
              end) in
   let* validUserId := resolveUserId in
   let* _ := onDb (fun d =>
               let run := withRetry env (createLog validUserId) 2 500 d in
               (result run, final run)) in
   onSink (let* b := getState in
           setState {| dbLoggingEnabled := dbLoggingEnabled b;
                       dbLoggingRetryCount := 0;
                       dbLoggingPaused := dbLoggingPaused b;
                       dbLoggingPauseUntil := dbLoggingPauseUntil b |}))%task.

(** The [catch] clause of the callback, with [now] the value of
    [Date.now()] when it runs. *)
Definition onFailure (now : Z) (dbError : Thrown) : Task World unit :=
  let error := toError "Unknown" dbError in
  if isConnectionError error then
    onSink (let* b := getState in
            let count := dbLoggingRetryCount b + 1 in
            if (count >=? MAX_DB_LOGGING_RETRIES)%Z then
              setState {| dbLoggingEnabled := dbLoggingEnabled b;
                          dbLoggingRetryCount := count;
                          dbLoggingPaused := true;
                          dbLoggingPauseUntil := now + DB_LOGGING_PAUSE_DURATION |}
            else
              setState {| dbLoggingEnabled := dbLoggingEnabled b;
                          dbLoggingRetryCount := count;
                          dbLoggingPaused := dbLoggingPaused b;
                          dbLoggingPauseUntil := dbLoggingPauseUntil b |})%task
  else ret tt.

(** The callback given to [setImmediate], run to completion. *)
Definition immediateCallback (now : Z) : Task World unit :=
  tryCatch persist (onFailure now).

End Deferred.

(** *** The sink on the event loop *)

(** The variables and the queue of [setImmediate] callbacks, each named by
    the [LogData] it closes over. *)
Record System := mkSystem { world : World; immediateQueue : list LogData }.

Definition initialSystem : System :=
  {| world := {| db := initialSupervisor; sink := initialSink |};
     immediateQueue := [] |}.

(** A turn of the event loop that concerns the sink. *)
Inductive Turn :=
| CallEnable
| CallLog (data : LogData) (now : Z)
| RunImmediate (now : Z).

Definition isEnable (t : Turn) : bool :=
  match t with CallEnable => true | _ => false end.

Definition turn (env : Env) (ds : Datastore) (t : Turn) : Task System unit :=
  fun sys =>
    match t with
    | CallEnable =>
      (Ok tt,
       {| world := {| db := db (world sys);
                      sink := enableDatabaseLogging (sink (world sys)) |};
          immediateQueue := immediateQueue sys |})
    | CallLog data now =>
      let '(r, b) := logToDatabase data now (sink (world sys)) in
      let sys1 scheduled :=
        {| world := {| db := db (world sys); sink := b |};
           immediateQueue := (immediateQueue sys ++ scheduled)%list |} in
      match r with
      | Ok (Some callback) => (Ok tt, sys1 [callback])
      | Ok None => (Ok tt, sys1 [])
      | Throw x => (Throw x, sys1 [])
      end
    | RunImmediate now =>
      match immediateQueue sys with
      | [] => (Ok tt, sys)
      | data :: queue =>
        let '(r, w) := immediateCallback env ds data now (world sys) in
        (r, {| world := w; immediateQueue := queue |})
      end
    end.

Fixpoint turns (env : Env) (ds : Datastore) (ts : list Turn) : Task System unit :=
  match ts with
  | [] => ret tt
  | t :: ts' => (let* _ := turn env ds t in turns env ds ts')%task
  end.

End Logger.

(** ** Observations on runs *)

(** The current initialization attempt has failed and no client exists. *)
Definition initFailed (s : Supervisor) : bool :=
  match prismaInstance s, initPromise s with
  | None, Some p => match promiseState s p with
                    | Rejected _ => true
                    | _ => false
                    end
  | _, _ => false
  end.

(** [n] calls of [initializePrisma] in a row, none of them awaited yet. *)
Fixpoint acquireCalls (n : nat) (s : Supervisor) : list Acquired * Supervisor :=
  match n with
  | O => ([], s)
  | S n' =>
    let '(r, s1) := initializePrisma s in
    let '(rs, s2) := acquireCalls n' s1 in
    (r :: rs, s2)
  end.

(** How the promise returned by a call of [initializePrisma] has settled in
    state [s], if it has. *)
Definition settled (s : Supervisor) (r : Acquired) : option (Outcome Client) :=
  match r with
  | Immediate c => Some (Ok c)
  | Awaiting p =>
    match promiseState s p with
    | Pending => None
    | Fulfilled c => Some (Ok c)
    | Rejected x => Some (Throw x)
    end
  end.

(** The calls of a run of [withRetry] whose attempts, numbered from
    [attempt] and made with [clients], all fail, the last one for good:
    between two attempts a reconnect and then a sleep of
    [retryDelay * attempt]. *)
Fixpoint failedAttempts (retryDelay attempt : Z) (clients : list Client)
  : list RetryEvent :=
  match clients with
  | [] => []
  | c :: rest =>
    EvRun attempt c ::
    match rest with
    | [] => []
    | _ :: _ =>
      EvReconnect :: EvSleep (retryDelay * attempt) ::
      failedAttempts retryDelay (attempt + 1) rest
    end
  end.

(** ** Sample environments *)

(** The client library loads, [DATABASE_URL] parses and [$connect] works. *)
Definition reachableEnv : Env :=
  {| init_outcome := fun _ => None; connect_outcome := fun _ => None |}.

(** [DATABASE_URL] is not set: [new URL('')] throws in every
    initialization. *)
Definition noUrlEnv : Env :=
  {| init_outcome := fun _ => Some (ThrownError (mkError "Invalid URL"));
     connect_outcome := fun _ => None |}.

(** The first initialization fails, later ones would succeed. *)
Definition firstInitFailsEnv : Env :=
  {| init_outcome := fun p => match p with
                              | O => Some (ThrownError (mkError "Invalid URL"))
                              | _ => None
                              end;
     connect_outcome := fun _ => None |}.

Definition refusedError : Thrown :=
  ThrownError (mkError "Can't reach database server: Connection refused").

Definition validationError : Thrown :=
  ThrownError (mkError "Invalid `prisma.log.create()` invocation: Unknown argument").

(** An operation that fails with [x] whenever it is called. *)
Definition alwaysFails (x : Thrown) (attempt : Z) (prisma : Client) : Outcome unit :=
  Throw x.

(** An operation whose first call fails with a refused connection and whose
    later calls fail with a validation error. *)
Definition failsTwice (attempt : Z) (prisma : Client) : Outcome unit :=
  if (attempt =? 1)%Z then Throw refusedError else Throw validationError.

(** Every insertion of a log row fails with the given error. *)
Definition failingDatastore (x : Thrown) : Logger.Datastore :=
  {| Logger.import_outcome := None;
     Logger.findUnique_outcome := fun _ _ => Ok None;
     Logger.create_outcome := fun _ _ _ => Some x |}.

Definition sampleLog : Logger.LogData :=
  {| Logger.userId := None;
     Logger.screenName := Some "Home";
     Logger.screenUrl := None;
     Logger.callerFunction := Some "loadAgents";
     Logger.buttonId := None;
     Logger.calledApi := None;
     Logger.backendApiUrl := None;
     Logger.logType := Logger.info;
     Logger.message := Some "agents loaded";
     Logger.errorCode := None;
     Logger.metadata := None |}.

(** The sink enabled, with [count] failures counted and no pause. *)
Definition enabledWorld (count : Z) : Logger.World :=
  {| Logger.db := initialSupervisor;
     Logger.sink := {| Logger.dbLoggingEnabled := true;
                       Logger.dbLoggingRetryCount := count;
                       Logger.dbLoggingPaused := false;
                       Logger.dbLoggingPauseUntil := 0 |} |}.

(** The counter of the sink is at the threshold only while the pause flag
    is set. *)
Definition tripped_is_paused (b : Logger.Sink) : Prop :=
  Logger.dbLoggingRetryCount b >= Logger.MAX_DB_LOGGING_RETRIES ->
  Logger.dbLoggingPaused b = true.

(** The properties [then], [catch] and [finally]. *)
Definition isReserved (prop : PropKey) : bool :=
  isName prop "then" || isName prop "catch" || isName prop "finally".

(** ** Health checks of the database module *)

(** The supervisor's variables together with [lastConnectionCheck]. *)
Record Health := mkHealth {
  supervisor : Supervisor;
  lastConnectionCheck : Z
}.

Definition CONNECTION_CHECK_INTERVAL : Z := 15000.

(** The callback of the interval timer set by [startConnectionKeepAlive],
    which closes over the client the timer was started for.  [probe] is how
    [SELECT 1] settles on a client and [now] the value of [Date.now()] after
    it. *)
Definition keepAliveTick (probe : Client -> option Thrown) (now : Z) (h : Health)
  : Health :=
  match connectionCheckTimer (supervisor h) with
  | None => h
  | Some client =>
    match probe client with
    | None => {| supervisor := supervisor h; lastConnectionCheck := now |}
    | Some _ => h
    end
  end.

(** [await checkDatabaseConnection()] *)
Definition checkDatabaseConnection (env : Env) (probe : Client -> option Thrown)
    (now : Z) (h : Health) : bool * Health :=
  let '(acquired, s1) := getPrismaClientAsync env (supervisor h) in
  let failure := match acquired with
                 | Ok prisma => probe prisma
                 | Throw x => Some x
                 end in
  match failure with
  | None => (true, {| supervisor := s1; lastConnectionCheck := now |})
  | Some _ =>
    let '(r, s2) := reconnectPrisma env s1 in
    (match r with Ok _ => true | Throw _ => false end,
     {| supervisor := s2; lastConnectionCheck := lastConnectionCheck h |})
  end.

(** [await ensureConnection()], with [now] its own reading of the clock and
    [checkedAt] the reading made by [checkDatabaseConnection]. *)
Definition ensureConnection (env : Env) (probe : Client -> option Thrown)
    (now checkedAt : Z) (h : Health) : Outcome Client * Health :=
  let acquire h1 :=
    let '(r, s) := getPrismaClientAsync env (supervisor h1) in
    (r, {| supervisor := s; lastConnectionCheck := lastConnectionCheck h1 |}) in
  if (now - lastConnectionCheck h >? CONNECTION_CHECK_INTERVAL)%Z then
    let '(isConnected, h1) := checkDatabaseConnection env probe checkedAt h in
    if isConnected then acquire h1
    else (Throw (ThrownError (mkError "Database connection unavailable")), h1)
  else acquire h.

(** The value of [getConnectionStats()], without its [timestamp]. *)
Inductive ConnectionStats :=
| StatsConnected (queryTime : Z)
| StatsDisconnected (error : string).

(** [await getConnectionStats()], with [startTime] and [endTime] the two
    readings of the clock around the query. *)
Definition getConnectionStats (env : Env) (probe : Client -> option Thrown)
    (startTime endTime : Z) (s : Supervisor) : ConnectionStats * Supervisor :=
  let '(acquired, s1) := getPrismaClientAsync env s in
  let failure := match acquired with
                 | Ok prisma => probe prisma
                 | Throw x => Some x
                 end in
  (match failure with
   | None => StatsConnected (endTime - startTime)
   | Some x => StatsDisconnected (message (toError "Unknown error" x))
   end, s1).

(** ** Runs of the supervisor *)

(** What can happen to the supervisor in one step: a call of one of its
    functions, run to completion, or the event loop running the body of an
    initialization promise that is pending. *)
Inductive SupervisorStep :=
| StepInitialize
| StepSettle (p : PromiseId)
| StepAcquire
| StepGetClient
| StepReconnect.

Definition supervisorStep (env : Env) (st : SupervisorStep) (s : Supervisor)
  : Supervisor :=
  match st with
  | StepInitialize => snd (initializePrisma s)
  | StepSettle p =>
    match promises s !! p with
    | Some Pending => snd (initBody env p s)
    | _ => s
    end
  | StepAcquire => snd (getPrismaClientAsync env s)
  | StepGetClient => getPrismaClient s
  | StepReconnect => snd (reconnectPrisma env s)
  end.

Definition supervisorRun (env : Env) (steps : list SupervisorStep) (s : Supervisor)
  : Supervisor :=
  fold_left (fun s st => supervisorStep env st s) steps s.

(** What every run of the supervisor keeps: the live client is the one
    constructed last and the timer probes it; there is one exit handler per
    constructed client; promises are numbered below [nextPromise] and fulfilled
    with constructed clients. *)
Record SupervisorInvariant (s : Supervisor) : Prop := mkSupervisorInvariant {
  inv_live : forall c, prismaInstance s = Some c ->
               constructed s = S c /\ connectionCheckTimer s = Some c;
  inv_timer : forall c, connectionCheckTimer s = Some c -> (c < constructed s)%nat;
  inv_handlers : exitHandlers s = seq 0 (constructed s);
  inv_init : forall p, initPromise s = Some p -> is_Some (promises s !! p);
  inv_promises : forall p st, promises s !! p = Some st ->
                   (p < nextPromise s)%nat /\
                   forall c, st = Fulfilled c -> (c < constructed s)%nat
}.

(** ** More observations on runs of [withRetry] *)

Fixpoint reconnects (tr : list RetryEvent) : nat :=
  match tr with
  | [] => 0
  | EvReconnect :: tr' => S (reconnects tr')
  | _ :: tr' => reconnects tr'
  end.

(** The time spent in timers, in ms. *)
Fixpoint slept (tr : list RetryEvent) : Z :=
  match tr with
  | [] => 0
  | EvSleep ms :: tr' => ms + slept tr'
  | _ :: tr' => slept tr'
  end.

(** An operation that fails with a refused connection until attempt
    [k] and then gives [v]. *)
Definition succeedsAt (k : Z) (v : Z) (attempt : Z) (prisma : Client) : Outcome Z :=
  if (attempt <? k)%Z then Throw refusedError else Ok v.


(** [data] with its [userId] replaced. *)
Definition withUserId (uid : option Z) (data : Logger.LogData) : Logger.LogData :=
  {| Logger.userId := uid;
     Logger.screenName := Logger.screenName data;
     Logger.screenUrl := Logger.screenUrl data;
     Logger.callerFunction := Logger.callerFunction data;
     Logger.buttonId := Logger.buttonId data;
     Logger.calledApi := Logger.calledApi data;
     Logger.backendApiUrl := Logger.backendApiUrl data;
     Logger.logType := Logger.logType data;
     Logger.message := Logger.message data;
     Logger.errorCode := Logger.errorCode data;
     Logger.metadata := Logger.metadata data |}.

(** The user row is gone and every insertion works. *)
Definition orphanDatastore : Logger.Datastore :=
  {| Logger.import_outcome := None;
     Logger.findUnique_outcome := fun _ _ => Ok None;
     Logger.create_outcome := fun _ _ _ => None |}.

(** The user lookup is refused. *)
Definition lookupRefusedDatastore : Logger.Datastore :=
  {| Logger.import_outcome := None;
     Logger.findUnique_outcome := fun _ _ => Throw refusedError;
     Logger.create_outcome := fun _ _ _ => None |}.

(** A world whose client is live. *)
Definition readyWorld (b : Logger.Sink) : Logger.World :=
  {| Logger.db := snd (getPrismaClientAsync reachableEnv initialSupervisor);
     Logger.sink := b |}.

(** ** More strings *)

Module Text.

(** [s.split(sep)] for a separator of one character: the pieces between the
    separators, at least one. *)
Fixpoint split (sep : ascii) (s : string) : list string :=
  match s with
  | EmptyString => [EmptyString]
  | String c rest =>
    if Ascii.eqb c sep then EmptyString :: split sep rest
    else match split sep rest with
         | piece :: pieces => String c piece :: pieces
         | [] => [String c EmptyString]
         end
  end.

(** The white space that [trim] removes, among the characters up to 255:
    tab, line feed, vertical tab, form feed, carriage return, space and
    no-break space. *)
Definition isWhiteSpace (c : ascii) : bool :=
  let n := nat_of_ascii c in
  ((9 <=? n)%nat && (n <=? 13)%nat) || (n =? 32)%nat || (n =? 160)%nat.

Fixpoint trimStart (s : string) : string :=
  match s with
  | EmptyString => EmptyString
  | String c rest => if isWhiteSpace c then trimStart rest else s
  end.

Fixpoint trimEnd (s : string) : string :=
  match s with
  | EmptyString => EmptyString
  | String c rest =>
    match trimEnd rest with
    | EmptyString => if isWhiteSpace c then EmptyString else String c EmptyString
    | rest' => String c rest'
    end
  end.

(** [s.trim()] *)
Definition trim (s : string) : string := trimEnd (trimStart s).

(** A string is truthy when it is not empty. *)
Definition truthy (s : string) : bool :=
  match s with EmptyString => false | _ => true end.

End Text.

(** ** The security middleware *)

Module Security.

(** The response, as far as the middleware touches it: its headers in the
    order they were first set, and what was sent, if anything. *)
Record Response := mkResponse {
  headers : list (string * string);
  sent : option Z
}.

(** [res.setHeader(name, value)]: the value replaces one set before under
    the same name. *)
Fixpoint setHeader (name value : string) (hs : list (string * string))
  : list (string * string) :=
  match hs with
  | [] => [(name, value)]
  | (n, v) :: rest =>
    if String.eqb n name then (n, value) :: rest
    else (n, v) :: setHeader name value rest
  end.

Fixpoint getHeader (name : string) (hs : list (string * string)) : option string :=
  match hs with
  | [] => None
  | (n, v) :: rest => if String.eqb n name then Some v else getHeader name rest
  end.

Definition set (name value : string) (res : Response) : Response :=
  {| headers := setHeader name value (headers res); sent := sent res |}.

(** What a middleware did: the response it leaves and whether it called
    [next]. *)
Record Handled := mkHandled { response : Response; calledNext : bool }.

Record Request := mkRequest {
  (** [req.headers.origin] *)
  origin : option string;
  method : string
}.

Definition defaultOrigins : list string :=
  ["http://localhost:3000"; "https://aionis-frontend.azurewebsites.net";
   "https://aionis.world"].

(** The constant [allowedOrigins] of [configureCORS], from
    [process.env.ALLOWED_ORIGINS]. *)
Definition allowedOrigins (ALLOWED_ORIGINS : option string) : list string :=
  match ALLOWED_ORIGINS with
  | Some s => if Text.truthy s then Text.split "," s else defaultOrigins
  | None => defaultOrigins
  end.

(** [allowedOrigins.includes(origin)] *)
Definition listed (origins : list string) (o : string) : bool :=
  existsb (String.eqb o) origins.

Definition isProduction (NODE_ENV : option string) : bool :=
  match NODE_ENV with
  | Some v => String.eqb v "production"
  | None => false
  end.

(** The middleware returned by [configureCORS()], with [NODE_ENV] as it is
    when the request is handled. *)
Definition configureCORS (ALLOWED_ORIGINS NODE_ENV : option string)
    (req : Request) (res : Response) : Handled :=
  let origins := allowedOrigins ALLOWED_ORIGINS in
  let present := match origin req with
                 | Some o => Text.truthy o
                 | None => false
                 end in
  let res1 :=
    if isProduction NODE_ENV ||
       (present && listed origins (default "" (origin req))) then
      let res' :=
        if present then
          set "Access-Control-Allow-Origin" (default "" (origin req)) res
        else if isProduction NODE_ENV then
          set "Access-Control-Allow-Origin" "*" res
        else res in
      set "Access-Control-Allow-Credentials" "true" res'
    else res in
  let res2 :=
    set "Access-Control-Max-Age" "86400"
      (set "Access-Control-Allow-Headers" "Content-Type, Authorization"
         (set "Access-Control-Allow-Methods" "GET, POST, PUT, DELETE, OPTIONS"
            res1)) in
  if String.eqb (method req) "OPTIONS" then
    {| response := {| headers := headers res2; sent := Some 204 |};
       calledNext := false |}
  else
    {| response := res2; calledNext := true |}.

(** [securityHeaders] *)
Definition securityHeaders (req : Request) (res : Response) : Handled :=
  {| response :=
       set "Strict-Transport-Security" "max-age=31536000; includeSubDomains"
         (set "X-XSS-Protection" "1; mode=block"
            (set "X-Frame-Options" "DENY"
               (set "X-Content-Type-Options" "nosniff" res)));
     calledNext := true |}.

(** [app.use(first); app.use(second)]: the second middleware runs when the
    first called [next]. *)
Definition chain (first second : Request -> Response -> Handled)
    (req : Request) (res : Response) : Handled :=
  let h := first req res in
  if calledNext h then second req (response h) else h.

End Security.

(** ** The usage limiter *)

(** [error instanceof Error ? error.message : 'Unknown error'] *)
Definition errorMessage (x : Thrown) : string :=
  message (toError "Unknown error" x).

Module Usage.

(** The row selected by [prisma.user.findUnique]. *)
Record User := mkUser {
  id : Z;
  email : string;
  name : string;
  role : string;
  subscriptionPlan : option string;
  isActive : bool
}.

(** What [usageService.checkUserUsage] resolves with, as far as it is read. *)
Record UserUsage := mkUserUsage {
  canUseService : bool;
  requiresPayment : bool;
  paymentAmount : option Z;
  message : string
}.

(** What [usageService.checkAnonymousUsage] resolves with, as far as it is
    read. *)
Module Anonymous.
Record Usage := mkUsage {
  canUseService : bool;
  message : string
}.
End Anonymous.

(** [req.usageStatus] *)
Module Status.
Record UsageStatus := mkUsageStatus {
  canUseService : bool;
  requiresPayment : bool;
  paymentAmount : option Z;
  isAnonymous : bool;
  ipAddress : string
}.
End Status.

(** The request: the headers and the socket address that are read, and the
    properties that are assigned. *)
Record Request := mkRequest {
  authorization : option string;
  forwardedFor : option string;
  remoteAddress : option string;
  userId : option Z;
  user : option User;
  usageStatus : option Status.UsageStatus
}.

(** The body sent with status 429. *)
Record LimitExceeded := mkLimitExceeded {
  limitMessage : string;
  upgradeRequired : bool;
  signupRequired : bool
}.

(** A call of [usageService.recordUsage], as far as the request decides
    its arguments. *)
Record Recorded := mkRecorded {
  recordedUser : option Z;
  recordedIp : option string;
  isBilled : bool;
  billedAmount : option Z
}.

(** The collaborators: [jwt.verify] (the [userId] of the decoded token),
    the user table, the usage service and the subscription service. *)
Record Services := mkServices {
  verify : string -> string -> Outcome Z;
  findUser : Client -> Z -> Outcome (option User);
  checkUserUsage : Z -> Outcome UserUsage;
  checkAnonymousUsage : string -> Outcome Anonymous.Usage;
  createPaygPayment : Z -> option Thrown;
  recordUsage : Recorded -> option Thrown
}.

(** What the middleware did: the request as it leaves it, the response it
    sent, how often it called [next], and what it gave to [logger.error]:
    the message and the [error] of the data. *)
Record Handled := mkHandled {
  request : Request;
  sent : option LimitExceeded;
  nextCalls : nat;
  logged : list (string * string)
}.

(** [authHeader && authHeader.split(' ')[1]]; [None] is [undefined]. *)
Definition tokenOf (authHeader : option string) : option string :=
  match authHeader with
  | None => None
  | Some h => if Text.truthy h then Text.split " " h !! 1%nat else Some h
  end.

Definition truthyString (s : option string) : option string :=
  match s with
  | Some v => if Text.truthy v then Some v else None
  | None => None
  end.

(** The constant [ipAddress] of [usageLimiter]. *)
Definition clientIp (req : Request) : string :=
  let first := match forwardedFor req with
               | None => None
               | Some h => Text.trim <$> (Text.split "," h !! 0%nat)
               end in
  match truthyString first with
  | Some ip => ip
  | None =>
    match truthyString (remoteAddress req) with
    | Some ip => ip
    | None => "0.0.0.0"
    end
  end.

Definition setUser (u : User) (req : Request) : Request :=
  {| authorization := authorization req; forwardedFor := forwardedFor req;
     remoteAddress := remoteAddress req;
     userId := Some (id u); user := Some u;
     usageStatus := usageStatus req |}.

Definition setUsageStatus (st : Status.UsageStatus) (req : Request) : Request :=
  {| authorization := authorization req; forwardedFor := forwardedFor req;
     remoteAddress := remoteAddress req;
     userId := userId req; user := user req;
     usageStatus := Some st |}.

(** The part of [usageLimiter] after the [if (token)] statement, with the
    [catch] clause of the outer [try]. *)
Definition anonymousPath (svc : Services) (ipAddress : string) (req : Request)
  : Handled :=
  match checkAnonymousUsage svc ipAddress with
  | Throw error =>
    {| request := req; sent := None; nextCalls := 1;
       logged := [("Usage limiter error", errorMessage error)] |}
  | Ok usage =>
    let req1 :=
      setUsageStatus
        {| Status.canUseService := Anonymous.canUseService usage;
           Status.requiresPayment := false;
           Status.paymentAmount := None;
           Status.isAnonymous := true;
           Status.ipAddress := ipAddress |} req in
    if negb (Anonymous.canUseService usage) then
      {| request := req1;
         sent := Some {| limitMessage := Anonymous.message usage;
                         upgradeRequired := false; signupRequired := true |};
         nextCalls := 0; logged := [] |}
    else
      {| request := req1; sent := None; nextCalls := 1; logged := [] |}
  end.

(** [prisma.user.findUnique(...)] on the proxy that the module took from
    [getPrismaClient()] when it was loaded. *)
Definition findUserThroughProxy (svc : Services) (s : Supervisor) (uid : Z)
  : Outcome (option User) :=
  match lazyProxy_get s (PString "user") with
  | Throw x => Throw x
  | Ok (VMember prisma _) => findUser svc prisma uid
  | Ok _ =>
    Throw (ThrownError (mkError
      "Cannot read properties of undefined (reading 'findUnique')"))
  end.

(** [await usageLimiter(req, res, next)], with the state of the database
    module when the request is handled. *)
Definition usageLimiter (JWT_SECRET : option string) (svc : Services)
    (s : Supervisor) (req : Request) : Handled :=
  let ipAddress := clientIp req in
  match truthyString (tokenOf (authorization req)) with
  | None => anonymousPath svc ipAddress req
  | Some token =>
    match truthyString JWT_SECRET with
    | None => anonymousPath svc ipAddress req
    | Some secret =>
      match verify svc token secret with
      | Throw _ => anonymousPath svc ipAddress req
      | Ok decodedUserId =>
        match findUserThroughProxy svc s decodedUserId with
        | Throw _ => anonymousPath svc ipAddress req
        | Ok None => anonymousPath svc ipAddress req
        | Ok (Some u) =>
          if isActive u then
            let req1 := setUser u req in
            match checkUserUsage svc (id u) with
            | Throw _ => anonymousPath svc ipAddress req1
            | Ok usage =>
              let req2 :=
                setUsageStatus
                  {| Status.canUseService := canUseService usage;
                     Status.requiresPayment := requiresPayment usage;
                     Status.paymentAmount := paymentAmount usage;
                     Status.isAnonymous := false;
                     Status.ipAddress := ipAddress |} req1 in
              if negb (canUseService usage) && negb (requiresPayment usage) then
                {| request := req2;
                   sent := Some {| limitMessage := message usage;
                                   upgradeRequired := true;
                                   signupRequired := false |};
                   nextCalls := 0; logged := [] |}
              else
                {| request := req2; sent := None; nextCalls := 1; logged := [] |}
            end
          else anonymousPath svc ipAddress req
        end
      end
    end
  end.

(** What [recordUsageAfterResponse] did: the users it called
    [createPaygPayment] for, its calls of [recordUsage], and what it gave
    to [logger.error]: the message and the [error] of the data. *)
Record Accounted := mkAccounted {
  payments : list Z;
  records : list Recorded;
  errors : list (string * string)
}.

Definition truthyNumber (n : option Z) : option Z :=
  match n with
  | Some v => if (v =? 0)%Z then None else Some v
  | None => None
  end.

(** [await recordUsageAfterResponse(req, requestType, toolMode)] *)
Definition recordUsageAfterResponse (svc : Services) (req : Request) : Accounted :=
  let userId := truthyNumber (userId req) in
  let ipAddress := truthyString (Status.ipAddress <$> usageStatus req) in
  let billable :=
    match usageStatus req with
    | Some st => if Status.requiresPayment st
                 then truthyNumber (Status.paymentAmount st) else None
    | None => None
    end in
  let '(payments, billingErrors) :=
    match billable, userId with
    | Some _, Some uid =>
      match createPaygPayment svc uid with
      | None => ([uid], [])
      | Some error => ([uid], [("PAYG billing failed", errorMessage error)])
      end
    | _, _ => ([], [])
    end in
  let record := {| recordedUser := userId; recordedIp := ipAddress;
                   isBilled := match billable with Some _ => true | None => false end;
                   billedAmount := billable |} in
  match recordUsage svc record with
  | None =>
    {| payments := payments; records := [record]; errors := billingErrors |}
  | Some error =>
    {| payments := payments; records := [record];
       errors := (billingErrors ++
                  [("Failed to record usage", errorMessage error)])%list |}
  end.

End Usage.

(** ** Sample requests for the usage limiter *)

Definition sampleUser : Usage.User :=
  {| Usage.id := 7; Usage.email := "kim@example.com"; Usage.name := "Kim";
     Usage.role := "user"; Usage.subscriptionPlan := None;
     Usage.isActive := true |}.

Definition bearerRequest : Usage.Request :=
  {| Usage.authorization := Some "Bearer abc.def.ghi";
     Usage.forwardedFor := Some " 203.0.113.9 , 10.0.0.1";
     Usage.remoteAddress := Some "10.0.0.1";
     Usage.userId := None; Usage.user := None; Usage.usageStatus := None |}.

(** Every token verifies as user 7, who exists and is active; the anonymous
    quota is given by [anonymousOk], the user's usage check by [userUsage],
    and payments fail with [payment]. *)
Definition sampleServices (userUsage : Outcome Usage.UserUsage)
    (anonymousOk : bool) (payment : option Thrown) : Usage.Services :=
  {| Usage.verify := fun _ _ => Ok 7;
     Usage.findUser := fun _ _ => Ok (Some sampleUser);
     Usage.checkUserUsage := fun _ => userUsage;
     Usage.checkAnonymousUsage := fun _ =>
       Ok {| Usage.Anonymous.canUseService := anonymousOk;
             Usage.Anonymous.message := "Daily limit reached" |};
     Usage.createPaygPayment := fun _ => payment;
     Usage.recordUsage := fun _ => None |}.

(** * Properties *)

(** ** Substring search *)

Section StrFacts.

Lemma prefix_append (a b : string) : String.prefix a (a ++ b) = true.
Proof.
  induction a as [|c a IH]; simpl.
  - now destruct b.
  - destruct (Ascii.ascii_dec c c) as [_|Hne]; [exact IH | now elim Hne].
Qed.

Lemma includes_prefix (n h : string) :
  String.prefix n h = true -> Str.includes n h = true.
Proof. intros H. destruct h; cbn [Str.includes]; now rewrite H. Qed.

Lemma includes_append_l (n a h : string) :
  Str.includes n h = true -> Str.includes n (a ++ h) = true.
Proof.
  intros H. induction a as [|c a IH]; [exact H|].
  change (String c a ++ h) with (String c (a ++ h)). cbn [Str.includes].
  rewrite IH. now destruct (String.prefix n (String c (a ++ h))).
Qed.

Lemma includes_middle (a n b : string) : Str.includes n (a ++ n ++ b) = true.
Proof. apply includes_append_l, includes_prefix, prefix_append. Qed.

Lemma append_assoc (a b c : string) : (a ++ b) ++ c = a ++ b ++ c.
Proof.
  induction a as [|x a IH]; [reflexivity|].
  change (String x ((a ++ b) ++ c) = String x (a ++ b ++ c)). now f_equal.
Qed.

End StrFacts.

(** ** Classification of errors *)

(** C8, as the code has it: the logger's [isConnectionError] recognises the
    six markers that [withRetry] tests and, in addition, [ConnectorError]; so
    every error that [withRetry] takes for a connection error is one for the
    logger, and the two tests agree on every message without
    [ConnectorError]. *)
Theorem logger_classifier_extends_retry_classifier (e : JsError) :
  Logger.isConnectionError e =
  isConnectionError e || Str.includes "ConnectorError" (message e).
Proof.
  unfold Logger.isConnectionError, isConnectionError.
  destruct e as [[|c m]]; reflexivity.
Qed.

(** C8, as stated, fails: an error whose message only carries the marker
    [ConnectorError] is a connection error for the logger and not for
    [withRetry]. *)
Lemma classifiers_disagree_on_ConnectorError :
  let e := mkError "Error occurred during query execution: ConnectorError(QueryError)" in
  ~ (Logger.isConnectionError e = true <-> isConnectionError e = true).
Proof.
  intros e [H _]. assert (Hl : Logger.isConnectionError e = true) by reflexivity.
  apply H in Hl. vm_compute in Hl. discriminate.
Qed.

(** ** The lazy proxy *)

(** C7, as the code has it: while there is no client, a read of
    [_initialized] gives [false], a read of [then], [catch] or [finally]
    gives [undefined], and a read of any other property throws an error whose
    message names the property and tells to use [getPrismaClientAsync()]. *)
Theorem lazyProxy_get_before_ready (s : Supervisor) (prop : PropKey) :
  prismaInstance s = None ->
  (isName prop "_initialized" = true ->
     lazyProxy_get s prop = Ok (VBool false)) /\
  (isName prop "_initialized" = false -> isReserved prop = true ->
     lazyProxy_get s prop = Ok VUndefined) /\
  (isName prop "_initialized" = false -> isReserved prop = false ->
     exists msg,
       lazyProxy_get s prop = Throw (ThrownError (mkError msg)) /\
       Str.includes "Prisma not initialized" msg = true /\
       Str.includes ("'" ++ String_of prop ++ "'") msg = true /\
       Str.includes "Use getPrismaClientAsync()" msg = true).
Proof.
  intros Hnone. unfold lazyProxy_get, isReserved. rewrite Hnone.
  split; [|split].
  - now intros ->.
  - now intros -> ->.
  - intros -> ->. exists (notInitializedMessage prop).
    split; [reflexivity|]. unfold notInitializedMessage. split; [|split].
    + reflexivity.
    + assert (E : ("Prisma not initialized. Accessing '" ++ String_of prop ++
                   "' before database is ready. Use getPrismaClientAsync() for async operations.")
                  = "Prisma not initialized. Accessing " ++
                    ("'" ++ String_of prop ++ "'") ++
                    " before database is ready. Use getPrismaClientAsync() for async operations.").
      { rewrite !append_assoc. reflexivity. }
      rewrite E. apply includes_middle.
    + apply includes_append_l, includes_append_l.
      reflexivity.
Qed.

Lemma lazyProxy_get_before_ready_witness :
  prismaInstance initialSupervisor = None /\
  exists msg,
    lazyProxy_get initialSupervisor (PString "user") =
      Throw (ThrownError (mkError msg)) /\
    Str.includes "'user'" msg = true.
Proof.
  split; [reflexivity|].
  destruct (lazyProxy_get_before_ready initialSupervisor (PString "user") eq_refl)
    as (_ & _ & H).
  destruct (H eq_refl eq_refl) as (msg & H1 & _ & H3 & _).
  exists msg. split; assumption.
Defined.

(** C7, as stated, fails: before the client is ready a read of
    [_initialized] does not throw, and it is none of [then], [catch] and
    [finally]. *)
Lemma lazyProxy_initialized_does_not_throw :
  prismaInstance initialSupervisor = None /\
  isReserved (PString "_initialized") = false /\
  lazyProxy_get initialSupervisor (PString "_initialized") = Ok (VBool false) /\
  (forall x, lazyProxy_get initialSupervisor (PString "_initialized") <> Throw x).
Proof. repeat split. intros x. discriminate. Qed.

(** ** The logger's database sink *)

Section SinkFacts.
Import Logger.

Lemma logToDatabase_disabled (data : LogData) (now : Z) (b : Sink) :
  dbLoggingEnabled b = false -> logToDatabase data now b = (Ok None, b).
Proof. unfold logToDatabase, bind, getState. now intros ->. Qed.

Lemma turns_disabled (env : Env) (ds : Datastore) (ts : list Turn) (sys : System) :
  dbLoggingEnabled (sink (world sys)) = false ->
  immediateQueue sys = [] ->
  forallb (fun t => negb (isEnable t)) ts = true ->
  turns env ds ts sys = (Ok tt, sys).
Proof.
  intros Hoff Hq. induction ts as [|t ts IH]; [reflexivity|].
  cbn [forallb]. intros [Ht Hts]%andb_prop.
  cbn [turns]. unfold bind.
  assert (Hturn : turn env ds t sys = (Ok tt, sys)).
  { destruct t as [|data now|now]; [discriminate| |].
    - unfold turn. rewrite (logToDatabase_disabled _ _ _ Hoff).
      destruct sys as [[d b] q]; cbn. now rewrite app_nil_r.
    - unfold turn. now rewrite Hq. }
  rewrite Hturn. now apply IH.
Qed.

(** C10: as long as [enableDatabaseLogging] has not been called, whatever
    the environment does, every call of [logToDatabase] returns without
    scheduling a callback and the system (the variables of the sink, the
    queue of callbacks, the connection) stays as it was at start-up. *)
Theorem logToDatabase_noop_until_enabled
    (env : Env) (ds : Datastore) (ts : list Turn) (data : LogData) (now : Z) :
  forallb (fun t => negb (isEnable t)) ts = true ->
  turns env ds ts initialSystem = (Ok tt, initialSystem) /\
  logToDatabase data now (sink (world (snd (turns env ds ts initialSystem))))
    = (Ok None, initialSink).
Proof.
  intros Hts.
  assert (H : turns env ds ts initialSystem = (Ok tt, initialSystem))
    by now apply turns_disabled.
  split; [exact H|]. rewrite H. now apply logToDatabase_disabled.
Qed.

Lemma onDb_sink {A} (f : Supervisor -> Outcome A * Supervisor) (w : World) :
  sink (snd (onDb f w)) = sink w.
Proof. unfold onDb. now destruct (f (db w)). Qed.

Lemma resolveUserId_sink (ds : Datastore) (data : LogData) (w : World) :
  sink (snd (resolveUserId ds data w)) = sink w.
Proof.
  unfold resolveUserId.
  destruct (userId data) as [uid|]; [|reflexivity].
  destruct (uid =? 0)%Z; [reflexivity|].
  unfold lookupUser, bind.
  destruct (onDb _ w) as [[u|x] w1] eqn:H1.
  - pose proof (onDb_sink (fun d => (Ok tt, getPrismaClient d)) w) as E1.
    rewrite H1 in E1. cbn in E1. rewrite <- E1. apply onDb_sink.
  - discriminate H1.
Qed.

Lemma persist_throw_sink (env : Env) (ds : Datastore) (data : LogData)
    (w w1 : World) (x : Thrown) :
  persist env ds data w = (Throw x, w1) -> sink w1 = sink w.
Proof.
  unfold persist, bind.
  destruct (import_outcome ds) as [x0|]; cbn.
  { now intros [= _ <-]. }
  pose proof (resolveUserId_sink ds data w) as E1.
  destruct (resolveUserId ds data w) as [[v|x1] w2]; cbn in E1.
  2:{ now intros [= _ <-]. }
  destruct (result _) as [u|x2]; [discriminate|].
  now intros [= _ <-].
Qed.

Lemma onFailure_completes (now : Z) (x : Thrown) (w : World) :
  fst (onFailure now x w) = Ok tt.
Proof.
  unfold onFailure. destruct (isConnectionError _); [|reflexivity].
  unfold onSink, bind, getState, setState. cbn.
  now destruct (_ >=? _)%Z.
Qed.

(** C4: a call of [logToDatabase] completes normally, and so does the
    callback it schedules, whatever the import, the user lookup and
    [withRetry] do: what its [try] block throws ends in its [catch]
    clause, which throws nothing. *)
Theorem logToDatabase_never_throws :
  (forall data now b, exists scheduled,
      fst (logToDatabase data now b) = Ok scheduled) /\
  (forall env ds data now w,
      fst (immediateCallback env ds data now w) = Ok tt) /\
  (forall env ds ts sys, fst (turns env ds ts sys) = Ok tt).
Proof.
  assert (Hcall : forall data now b, exists scheduled,
             fst (logToDatabase data now b) = Ok scheduled).
  { intros data now b. unfold logToDatabase, bind, getState, setState, ret.
    destruct (dbLoggingEnabled b); cbn; [|eauto].
    destruct (dbLoggingPaused b); cbn.
    - destruct (now <? _)%Z; cbn; eauto.
    - destruct (_ >=? _)%Z; cbn; eauto. }
  assert (Hcb : forall env ds data now w,
             fst (immediateCallback env ds data now w) = Ok tt).
  { intros env ds data now w. unfold immediateCallback, tryCatch.
    destruct (persist env ds data w) as [[[]|x] w1]; [reflexivity|].
    apply onFailure_completes. }
  split; [exact Hcall|]. split; [exact Hcb|].
  intros env ds ts. induction ts as [|t ts IH]; intros sys; [reflexivity|].
  cbn [turns]. unfold bind.
  assert (Hturn : fst (turn env ds t sys) = Ok tt).
  { destruct t as [|data now|now]; unfold turn; cbv beta iota.
    - reflexivity.
    - destruct (Hcall data now (sink (world sys))) as [scheduled Hs].
      destruct (logToDatabase data now (sink (world sys))) as [r b].
      cbn in Hs. subst r. now destruct scheduled.
    - destruct (immediateQueue sys) as [|data q]; [reflexivity|].
      specialize (Hcb env ds data now (world sys)).
      now destruct (immediateCallback env ds data now (world sys)). }
  destruct (turn env ds t sys) as [r sys1]. cbn in Hturn. subst r. apply IH.
Qed.

Lemma logToDatabase_noop_until_enabled_witness :
  turns reachableEnv (failingDatastore refusedError)
    [CallLog sampleLog 1000; RunImmediate 1001; CallLog sampleLog 2000]
    initialSystem = (Ok tt, initialSystem).
Proof.
  apply (logToDatabase_noop_until_enabled reachableEnv
           (failingDatastore refusedError)
           [CallLog sampleLog 1000; RunImmediate 1001; CallLog sampleLog 2000]
           sampleLog 3000).
  reflexivity.
Defined.

(** C3: when a failed callback brings the counter of connection errors to
    the threshold, it sets the pause to end 30000 ms after the time it reads;
    while the sink is enabled and paused, a call before [dbLoggingPauseUntil]
    changes nothing and schedules nothing, and a call at or after it clears
    the pause, sets the counter to 0 and schedules the callback. *)
Theorem breaker_trip_pause_and_lapse :
  (forall env ds data now w x w1,
      persist env ds data w = (Throw x, w1) ->
      isConnectionError (toError "Unknown" x) = true ->
      dbLoggingRetryCount (sink w) + 1 >= 3 ->
      let b := sink (snd (immediateCallback env ds data now w)) in
      dbLoggingRetryCount b = dbLoggingRetryCount (sink w) + 1 /\
      dbLoggingPaused b = true /\
      dbLoggingPauseUntil b = now + 30000) /\
  (forall data now b,
      dbLoggingEnabled b = true -> dbLoggingPaused b = true ->
      now < dbLoggingPauseUntil b ->
      logToDatabase data now b = (Ok None, b)) /\
  (forall data now b,
      dbLoggingEnabled b = true -> dbLoggingPaused b = true ->
      dbLoggingPauseUntil b <= now ->
      logToDatabase data now b =
      (Ok (Some data),
       {| dbLoggingEnabled := true; dbLoggingRetryCount := 0;
          dbLoggingPaused := false;
          dbLoggingPauseUntil := dbLoggingPauseUntil b |})).
Proof.
  split; [|split].
  - intros env ds data now w x w1 Hp Hc Hn.
    unfold immediateCallback, tryCatch. rewrite Hp.
    apply persist_throw_sink in Hp.
    unfold onFailure. rewrite Hc.
    unfold onSink, bind, getState, setState. cbn. rewrite Hp.
    unfold MAX_DB_LOGGING_RETRIES, DB_LOGGING_PAUSE_DURATION.
    destruct (_ >=? 3)%Z eqn:E; [now cbn | lia].
  - intros data now b He Hp Hlt.
    unfold logToDatabase, bind, getState. rewrite He, Hp. cbn.
    now apply Z.ltb_lt in Hlt as ->.
  - intros data now b He Hp Hge.
    unfold logToDatabase, bind, getState, setState, ret. rewrite He, Hp. cbn.
    now apply Z.ltb_ge in Hge as ->.
Qed.

Lemma breaker_trip_pause_and_lapse_witness :
  let w := enabledWorld 2 in
  let ds := failingDatastore refusedError in
  let b := sink (snd (immediateCallback reachableEnv ds sampleLog 5000 w)) in
  (dbLoggingRetryCount b = 3 /\ dbLoggingPaused b = true /\
   dbLoggingPauseUntil b = 35000) /\
  logToDatabase sampleLog 34999 b = (Ok None, b) /\
  logToDatabase sampleLog 35000 b =
    (Ok (Some sampleLog),
     {| dbLoggingEnabled := true; dbLoggingRetryCount := 0;
        dbLoggingPaused := false; dbLoggingPauseUntil := 35000 |}).
Proof.
  intros w ds b.
  destruct breaker_trip_pause_and_lapse as (Htrip & Hpause & Hlapse).
  split; [|split].
  - eapply (Htrip reachableEnv ds sampleLog 5000 w).
    + vm_compute. reflexivity.
    + reflexivity.
    + vm_compute. discriminate.
  - apply Hpause; [reflexivity | reflexivity | vm_compute; reflexivity].
  - apply (Hlapse sampleLog 35000 b);
      [reflexivity | reflexivity | vm_compute; discriminate].
Defined.

(** C6: when the [try] block of the callback fails with an error that the
    logger does not take for a connection error, the callback leaves the
    variables of the sink as they were: the counter is not incremented and
    no pause is set. *)
Theorem other_failures_leave_breaker_unchanged
    (env : Env) (ds : Datastore) (data : LogData) (now : Z)
    (w w1 : World) (x : Thrown) :
  persist env ds data w = (Throw x, w1) ->
  isConnectionError (toError "Unknown" x) = false ->
  sink (snd (immediateCallback env ds data now w)) = sink w.
Proof.
  intros Hp Hc. unfold immediateCallback, tryCatch. rewrite Hp.
  unfold onFailure. rewrite Hc. cbn. now apply persist_throw_sink in Hp.
Qed.

Lemma other_failures_leave_breaker_unchanged_witness :
  sink (snd (immediateCallback reachableEnv (failingDatastore validationError)
               sampleLog 5000 (enabledWorld 2)))
  = sink (enabledWorld 2).
Proof.
  eapply (other_failures_leave_breaker_unchanged reachableEnv
            (failingDatastore validationError) sampleLog 5000 (enabledWorld 2)).
  - vm_compute. reflexivity.
  - reflexivity.
Defined.

(** Three failed persistences in a row against a database that refuses
    connections trip the pause; a fourth call within the window does
    nothing, and a call when the window has elapsed resets the counter and
    schedules its callback.  Computed. *)
Example three_failures_then_pause :
  let ds := failingDatastore refusedError in
  let failures := [CallEnable;
                   CallLog sampleLog 1000; RunImmediate 1010;
                   CallLog sampleLog 2000; RunImmediate 2010;
                   CallLog sampleLog 3000; RunImmediate 3010] in
  let tripped := snd (turns reachableEnv ds failures initialSystem) in
  let fourth := snd (turn reachableEnv ds (CallLog sampleLog 4000) tripped) in
  let later := snd (turn reachableEnv ds (CallLog sampleLog 33010) fourth) in
  sink (world tripped) =
    {| dbLoggingEnabled := true; dbLoggingRetryCount := 3;
       dbLoggingPaused := true; dbLoggingPauseUntil := 33010 |} /\
  immediateQueue tripped = [] /\
  fourth = tripped /\
  sink (world later) =
    {| dbLoggingEnabled := true; dbLoggingRetryCount := 0;
       dbLoggingPaused := false; dbLoggingPauseUntil := 33010 |} /\
  immediateQueue later = [sampleLog].
Proof. vm_compute. repeat split. Qed.

Lemma persist_ok_sink (env : Env) (ds : Datastore) (data : LogData)
    (w w1 : World) (u : unit) :
  persist env ds data w = (Ok u, w1) -> dbLoggingRetryCount (sink w1) = 0.
Proof.
  unfold persist, bind.
  destruct (import_outcome ds) as [x0|]; cbn; [discriminate|].
  destruct (resolveUserId ds data w) as [[v|x1] w2]; [|discriminate].
  destruct (result _) as [u'|x2]; [|discriminate].
  now intros [= _ <-].
Qed.

Lemma logToDatabase_keeps_invariant (data : LogData) (now : Z) (b : Sink) :
  tripped_is_paused b -> tripped_is_paused (snd (logToDatabase data now b)).
Proof.
  unfold tripped_is_paused, logToDatabase, bind, getState, setState, ret.
  unfold MAX_DB_LOGGING_RETRIES. intros Hb.
  destruct (dbLoggingEnabled b); cbn; [|exact Hb].
  destruct (dbLoggingPaused b) eqn:Hp; cbn.
  - destruct (now <? _)%Z; cbn; [now rewrite Hp | lia].
  - destruct (_ >=? 3)%Z eqn:E; cbn; [reflexivity | now rewrite Hp].
Qed.

Lemma immediateCallback_keeps_invariant
    (env : Env) (ds : Datastore) (data : LogData) (now : Z) (w : World) :
  tripped_is_paused (sink w) ->
  tripped_is_paused (sink (snd (immediateCallback env ds data now w))).
Proof.
  unfold tripped_is_paused, MAX_DB_LOGGING_RETRIES. intros Hw.
  unfold immediateCallback, tryCatch.
  destruct (persist env ds data w) as [[u|x] w1] eqn:Hp.
  - apply persist_ok_sink in Hp. cbn. lia.
  - apply persist_throw_sink in Hp. destruct w1 as [d1 b1]. cbn in Hp. subst b1.
    unfold onFailure.
    destruct (isConnectionError _); cbn; [|exact Hw].
    unfold onSink, bind, getState, setState, MAX_DB_LOGGING_RETRIES. cbn.
    destruct (dbLoggingRetryCount (sink w) + 1 >=? 3)%Z eqn:E; cbn;
      [reflexivity | lia].
Qed.

(** In every state the system reaches, a counter at or above the threshold
    comes with the pause flag: the pause is set by the failure that brings
    the counter there, not by a later call. *)
Lemma breaker_invariant (env : Env) (ds : Datastore) (ts : list Turn) :
  forall sys,
    tripped_is_paused (sink (world sys)) ->
    tripped_is_paused (sink (world (snd (turns env ds ts sys)))).
Proof.
  induction ts as [|t ts IH]; intros sys Hsys; [exact Hsys|].
  cbn [turns]. unfold bind.
  assert (Hturn : tripped_is_paused (sink (world (snd (turn env ds t sys))))).
  { destruct t as [|data now|now]; unfold turn; cbv beta iota.
    - unfold tripped_is_paused, MAX_DB_LOGGING_RETRIES. cbn. lia.
    - pose proof (logToDatabase_keeps_invariant data now _ Hsys) as H.
      destruct (logToDatabase data now (sink (world sys))) as [[[cb|]|x] b];
        exact H.
    - destruct (immediateQueue sys) as [|data q]; [exact Hsys|].
      pose proof (immediateCallback_keeps_invariant env ds data now _ Hsys) as H.
      now destruct (immediateCallback env ds data now (world sys)). }
  destruct (turn env ds t sys) as [[u|x] sys1]; cbn in Hturn.
  - now apply IH.
  - exact Hturn.
Qed.

End SinkFacts.

(** ** The connection supervisor *)

Lemma initializePrisma_live (s : Supervisor) (c : Client) :
  prismaInstance s = Some c -> initializePrisma s = (Immediate c, s).
Proof. unfold initializePrisma. now intros ->. Qed.

Lemma initializePrisma_in_flight (s : Supervisor) (p : PromiseId) :
  prismaInstance s = None -> initPromise s = Some p ->
  initializePrisma s = (Awaiting p, s).
Proof. unfold initializePrisma. now intros -> ->. Qed.

Lemma acquireCalls_in_flight (n : nat) (s : Supervisor) (p : PromiseId) :
  prismaInstance s = None -> initPromise s = Some p ->
  acquireCalls n s = (replicate n (Awaiting p), s).
Proof.
  intros Hi Hp. induction n as [|n IH]; [reflexivity|].
  cbn [acquireCalls]. rewrite (initializePrisma_in_flight s p Hi Hp), IH.
  reflexivity.
Qed.

(** C2, as the code has it: when the body of the initialization promise
    throws, the rejected promise stays in [initPromise] and there is still no
    client, so every later acquire, whatever the environment would do then,
    rejects with the same error and starts nothing; only [reconnectPrisma]
    clears [initPromise] and initializes anew. *)
Theorem failed_initialization_is_kept
    (env : Env) (p : PromiseId) (s : Supervisor) (x : Thrown) :
  prismaInstance s = None -> initPromise s = Some p ->
  init_outcome env p = Some x ->
  let s' := snd (initBody env p s) in
  fst (initBody env p s) = Throw x /\
  prismaInstance s' = None /\ initPromise s' = Some p /\
  promiseState s' p = Rejected x /\
  (forall env', getPrismaClientAsync env' s' = (Throw x, s')) /\
  (forall env', isReconnecting s = false ->
     init_outcome env' (nextPromise s) = None ->
     let s'' := snd (reconnectPrisma env' s') in
     initPromise s'' = Some (nextPromise s) /\
     prismaInstance s'' = Some (constructed s)).
Proof.
  intros Hi Hp Hx. unfold initBody. rewrite Hx. cbn [fst snd].
  split; [reflexivity|]. split; [exact Hi|]. split; [exact Hp|].
  split; [|split].
  - unfold promiseState. cbn. now rewrite lookup_insert_eq.
  - intros env'. unfold getPrismaClientAsync, initializePrisma. cbn.
    rewrite Hi, Hp. unfold await, promiseState. cbn.
    now rewrite lookup_insert_eq.
  - intros env' Hr Hok. unfold reconnectPrisma. cbn. rewrite Hr.
    unfold getPrismaClientAsync, initializePrisma, await, promiseState. cbn.
    rewrite lookup_insert_eq. cbn. unfold initBody. cbn. rewrite Hok. cbn.
    now destruct (connect_outcome env' (constructed s)).
Qed.

Lemma failed_initialization_is_kept_witness :
  let s := snd (initializePrisma initialSupervisor) in
  let s' := snd (initBody firstInitFailsEnv 0%nat s) in
  getPrismaClientAsync reachableEnv s' =
    (Throw (ThrownError (mkError "Invalid URL")), s') /\
  prismaInstance (snd (reconnectPrisma reachableEnv s')) = Some 0%nat.
Proof.
  intros s s'.
  destruct (failed_initialization_is_kept firstInitFailsEnv 0%nat s
              (ThrownError (mkError "Invalid URL")) eq_refl eq_refl eq_refl)
    as (_ & _ & _ & _ & Hkeep & Hre).
  split; [apply Hkeep|]. apply (Hre reachableEnv); reflexivity.
Defined.

(** C2, as stated, fails: after a failed initialization [initPromise] still
    holds the rejected promise, and the next acquire rejects with the old
    error without a new attempt, although a new attempt would succeed. *)
Lemma failed_initialization_is_not_reset :
  let first := getPrismaClientAsync firstInitFailsEnv initialSupervisor in
  let second := getPrismaClientAsync firstInitFailsEnv (snd first) in
  fst first = Throw (ThrownError (mkError "Invalid URL")) /\
  initPromise (snd first) = Some 0%nat /\
  initPromise (snd first) <> None /\
  fst second = Throw (ThrownError (mkError "Invalid URL")) /\
  nextPromise (snd second) = nextPromise (snd first) /\
  init_outcome firstInitFailsEnv (nextPromise (snd first)) = None.
Proof. vm_compute. repeat split. discriminate. Qed.

(** C9: a call of [initializePrisma] returns the live client when there is
    one and the promise in flight when there is one, changing nothing; so [n]
    calls made while no client exists all return one and the same promise,
    of which there is one body to run, and when that body succeeds it
    constructs one client, to which all [n] calls resolve. *)
Theorem acquire_is_coalesced :
  (forall s c, prismaInstance s = Some c ->
     initializePrisma s = (Immediate c, s)) /\
  (forall s p, prismaInstance s = None -> initPromise s = Some p ->
     initializePrisma s = (Awaiting p, s)) /\
  (forall env n s,
     (0 < n)%nat ->
     prismaInstance s = None ->
     (forall q, initPromise s = Some q -> promiseState s q = Pending) ->
     let p := default (nextPromise s) (initPromise s) in
     let calls := acquireCalls n s in
     fst calls = replicate n (Awaiting p) /\
     initPromise (snd calls) = Some p /\
     promiseState (snd calls) p = Pending /\
     constructed (snd calls) = constructed s /\
     (nextPromise (snd calls) <= S (nextPromise s))%nat /\
     (init_outcome env p = None ->
        let done := snd (initBody env p (snd calls)) in
        constructed done = S (constructed s) /\
        prismaInstance done = Some (constructed s) /\
        Forall (fun r => settled done r = Some (Ok (constructed s))) (fst calls))).
Proof.
  split; [exact initializePrisma_live|].
  split; [exact initializePrisma_in_flight|].
  intros env n s Hn Hi Hpend p calls.
  assert (Hcalls : exists s1,
            calls = (replicate n (Awaiting p), s1) /\
            prismaInstance s1 = None /\ initPromise s1 = Some p /\
            promiseState s1 p = Pending /\ constructed s1 = constructed s /\
            (nextPromise s1 <= S (nextPromise s))%nat).
  { subst calls p. destruct (initPromise s) as [q|] eqn:Hq; cbn [default].
    - exists s. rewrite (acquireCalls_in_flight n s q Hi Hq).
      repeat split; auto.
    - destruct n as [|n]; [lia|]. cbn [acquireCalls].
      unfold initializePrisma at 1. rewrite Hi, Hq.
      match goal with |- context [acquireCalls n ?s1] => set (s1' := s1) end.
      rewrite (acquireCalls_in_flight n s1' (nextPromise s)) by reflexivity.
      exists s1'. repeat split; auto.
      unfold promiseState. cbn. now rewrite lookup_insert_eq. }
  destruct Hcalls as (s1 & -> & Hi1 & Hp1 & Hs1 & Hc1 & Hn1). cbn [fst snd].
  do 5 (split; [assumption || reflexivity|]).
  intros Hok. split; [|split].
  - unfold initBody. rewrite Hok. cbn. now rewrite Hc1.
  - unfold initBody. rewrite Hok. cbn. now rewrite Hc1.
  - apply Forall_replicate.
    unfold initBody. rewrite Hok. unfold settled, promiseState. cbn.
    now rewrite lookup_insert_eq, Hc1.
Qed.

Lemma acquire_is_coalesced_witness :
  let calls := acquireCalls 3 initialSupervisor in
  let done := snd (initBody reachableEnv 0%nat (snd calls)) in
  fst calls = [Awaiting 0%nat; Awaiting 0%nat; Awaiting 0%nat] /\
  constructed done = 1%nat /\
  Forall (fun r => settled done r = Some (Ok 0%nat)) (fst calls).
Proof.
  intros calls done.
  destruct acquire_is_coalesced as (_ & _ & H).
  destruct (H reachableEnv 3%nat initialSupervisor) as (Hrs & _ & _ & _ & _ & Hdone).
  - lia.
  - reflexivity.
  - discriminate.
  - destruct (Hdone eq_refl) as (Hc & _ & Hall).
    split; [exact Hrs|]. split; [exact Hc | exact Hall].
Defined.

(** ** The retry executor *)

Lemma failedAttempts_more (d a : Z) (c : Client) (cs : list Client) (c' : Client) :
  failedAttempts d a (c :: cs ++ [c']) =
  EvRun a c :: EvReconnect :: EvSleep (d * a) :: failedAttempts d (a + 1) (cs ++ [c']).
Proof. cbn [failedAttempts]. now destruct cs. Qed.

Lemma runs_failedAttempts (d : Z) (cs : list Client) :
  forall a, runs (failedAttempts d a cs) = length cs.
Proof.
  induction cs as [|c cs IH]; intros a; [reflexivity|].
  cbn [failedAttempts runs length]. f_equal.
  destruct cs as [|c' cs]; [reflexivity|].
  cbn [runs]. apply IH.
Qed.

Section Acquirable.
Variable env : Env.
Hypothesis Hinit : forall p, init_outcome env p = None.

Lemma getPrismaClientAsync_succeeds (s : Supervisor) :
  initFailed s = false ->
  exists c s', getPrismaClientAsync env s = (Ok c, s') /\ initFailed s' = false.
Proof.
  unfold initFailed, getPrismaClientAsync, initializePrisma.
  destruct (prismaInstance s) as [c|] eqn:Hi.
  { intros _. exists c, s. now rewrite Hi. }
  destruct (initPromise s) as [p|] eqn:Hp.
  - unfold await. destruct (promiseState s p) as [|c|x] eqn:Hs.
    + intros _. unfold initBody. rewrite Hinit. eauto.
    + intros _. exists c, s. now rewrite Hi, Hp, Hs.
    + discriminate.
  - intros _. unfold await, promiseState. cbn. rewrite lookup_insert_eq. cbn.
    unfold initBody. rewrite Hinit. eauto.
Qed.

Lemma reconnectPrisma_keeps_acquirable (s : Supervisor) :
  initFailed s = false -> initFailed (snd (reconnectPrisma env s)) = false.
Proof.
  intros Hs. unfold reconnectPrisma. destruct (isReconnecting s).
  - destruct (getPrismaClientAsync_succeeds s Hs) as (c & s' & -> & Hs').
    exact Hs'.
  - match goal with |- context [getPrismaClientAsync env ?s1] =>
      destruct (getPrismaClientAsync_succeeds s1 eq_refl) as (c & s' & -> & Hs')
    end.
    now destruct (connect_outcome env c).
Qed.

Variable T : Type.
Variable operation : Z -> Client -> Outcome T.
Variables maxRetries retryDelay : Z.

(** A run of the loop in which [m] attempts fail with a connection error
    before [maxRetries] is reached, and the next one fails either with
    another error or as the last attempt allowed. *)
Lemma retryLoop_failures (m : nat) :
  forall remaining attempt lastError s,
    (m < remaining)%nat ->
    initFailed s = false ->
    (forall j c, attempt <= j < attempt + Z.of_nat m ->
       j < maxRetries /\
       exists x, operation j c = Throw x /\
                 isConnectionError (toError "Unknown error" x) = true) ->
    (forall c, exists x,
       operation (attempt + Z.of_nat m) c = Throw x /\
       (isConnectionError (toError "Unknown error" x) &&
        (attempt + Z.of_nat m <? maxRetries)%Z) = false) ->
    let run := retryLoop env operation maxRetries retryDelay
                 remaining attempt lastError s in
    exists clients last x,
      length clients = m /\
      trace run = failedAttempts retryDelay attempt (clients ++ [last]) /\
      operation (attempt + Z.of_nat m) last = Throw x /\
      result run = Throw (ThrownError (toError "Unknown error" x)).
Proof.
  induction m as [|m IH]; intros remaining attempt lastError s Hrem Hs Hretry Hstop.
  - destruct remaining as [|remaining]; [lia|]. cbn [retryLoop].
    change (Z.of_nat 0) with 0 in *. rewrite Z.add_0_r in *.
    destruct (getPrismaClientAsync_succeeds s Hs) as (c & s1 & -> & Hs1).
    destruct (Hstop c) as (x & Hx & Hgive). rewrite Hx, Hgive.
    exists [], c, x. cbn. auto.
  - destruct remaining as [|remaining]; [lia|]. cbn [retryLoop].
    destruct (getPrismaClientAsync_succeeds s Hs) as (c & s1 & -> & Hs1).
    destruct (Hretry attempt c) as (Hlt & x & Hx & Hconn); [lia|].
    rewrite Hx, Hconn. apply Z.ltb_lt in Hlt as ->. cbn [andb].
    pose proof (reconnectPrisma_keeps_acquirable s1 Hs1) as Hs2.
    destruct (IH remaining (attempt + 1)
                (Some (toError "Unknown error" x))
                (snd (reconnectPrisma env s1)))
      as (clients & last & y & Hlen & Htrace & Hy & Hres);
      [lia | exact Hs2 | | |].
    + intros j c' Hj. apply Hretry. lia.
    + intros c'. replace (attempt + 1 + Z.of_nat m) with (attempt + Z.of_nat (S m)) by lia.
      apply Hstop.
    + exists (c :: clients), last, y. cbn [trace result length app].
      rewrite failedAttempts_more, Htrace, Hlen, Hres.
      replace (attempt + Z.of_nat (S m)) with (attempt + 1 + Z.of_nat m) by lia.
      auto.
Qed.

End Acquirable.

(** C1: when a client can be acquired for every attempt and every call of
    the operation fails with a connection error, [withRetry] calls the
    operation [maxRetries] times, calls [reconnectPrisma] and then sleeps
    [retryDelay * k] between attempt [k] and attempt [k + 1], and rejects
    with the error of the last call. *)
Theorem withRetry_exhausts_on_connection_errors
    (T : Type) (env : Env) (operation : Z -> Client -> Outcome T)
    (maxRetries retryDelay : Z) (s : Supervisor) :
  1 <= maxRetries -> 0 <= retryDelay ->
  (forall p, init_outcome env p = None) -> initFailed s = false ->
  (forall k c, 1 <= k <= maxRetries ->
     exists e, operation k c = Throw (ThrownError e) /\
               isConnectionError e = true) ->
  let run := withRetry env operation maxRetries retryDelay s in
  exists clients last,
    length clients = Z.to_nat (maxRetries - 1) /\
    trace run = failedAttempts retryDelay 1 (clients ++ [last]) /\
    runs (trace run) = Z.to_nat maxRetries /\
    result run = operation maxRetries last.
Proof.
  intros HN _ Hinit Hs Hop run. subst run. unfold withRetry.
  destruct (retryLoop_failures env Hinit T operation maxRetries retryDelay
              (Z.to_nat (maxRetries - 1)) (Z.to_nat maxRetries) 1 None s)
    as (clients & last & x & Hlen & Htrace & Hx & Hres).
  - lia.
  - exact Hs.
  - intros j c Hj. split; [lia|].
    destruct (Hop j c) as (e & He & Hc); [lia|]. now exists (ThrownError e).
  - intros c. destruct (Hop (1 + Z.of_nat (Z.to_nat (maxRetries - 1))) c)
      as (e & He & Hc); [lia|].
    exists (ThrownError e). split; [exact He|].
    replace (_ <? _)%Z with false by (symmetry; apply Z.ltb_ge; lia).
    apply andb_false_r.
  - replace (1 + Z.of_nat (Z.to_nat (maxRetries - 1))) with maxRetries in * by lia.
    exists clients, last.
    split; [exact Hlen|]. split; [exact Htrace|]. split.
    + rewrite Htrace, runs_failedAttempts, length_app, Hlen. cbn. lia.
    + rewrite Hres, Hx. destruct (Hop maxRetries last) as (e & He & _); [lia|].
      rewrite He in Hx. now injection Hx as <-.
Qed.

Lemma withRetry_exhausts_on_connection_errors_witness :
  let run := withRetry reachableEnv (alwaysFails refusedError) 3 1000
               initialSupervisor in
  exists clients last,
    length clients = 2%nat /\
    trace run = failedAttempts 1000 1 (clients ++ [last]) /\
    runs (trace run) = 3%nat /\
    result run = Throw refusedError.
Proof.
  apply (withRetry_exhausts_on_connection_errors unit reachableEnv
           (alwaysFails refusedError) 3 1000 initialSupervisor).
  - lia.
  - lia.
  - reflexivity.
  - reflexivity.
  - intros k c _. eexists. split; reflexivity.
Defined.

(** Three attempts against a database that refuses connections, computed. *)
Example withRetry_three_attempts :
  let run := withRetry reachableEnv (alwaysFails refusedError) 3 1000
               initialSupervisor in
  trace run = [EvRun 1 0%nat; EvReconnect; EvSleep 1000;
               EvRun 2 1%nat; EvReconnect; EvSleep 2000;
               EvRun 3 2%nat] /\
  result run = Throw refusedError.
Proof. vm_compute. split; reflexivity. Qed.

(** C5: when attempt [k] is the first that fails with an error that is not
    a connection error, [withRetry] rejects with that error ([lastError]: the
    thrown [Error], or [Error('Unknown error')] for a thrown value that is no
    [Error]) and attempt [k] is the last call it makes: no reconnect and no
    sleep follow it, and the operation has been called [k] times. *)
Theorem withRetry_rejects_other_errors_at_once
    (T : Type) (env : Env) (operation : Z -> Client -> Outcome T)
    (maxRetries retryDelay : Z) (s : Supervisor) (k : Z) :
  1 <= k <= maxRetries ->
  (forall p, init_outcome env p = None) -> initFailed s = false ->
  (forall j c, 1 <= j < k ->
     exists x, operation j c = Throw x /\
               isConnectionError (toError "Unknown error" x) = true) ->
  (forall c, exists x, operation k c = Throw x /\
               isConnectionError (toError "Unknown error" x) = false) ->
  let run := withRetry env operation maxRetries retryDelay s in
  exists clients last x,
    length clients = Z.to_nat (k - 1) /\
    trace run = failedAttempts retryDelay 1 (clients ++ [last]) /\
    runs (trace run) = Z.to_nat k /\
    (k = 1 -> trace run = [EvRun 1 last]) /\
    operation k last = Throw x /\
    result run = Throw (ThrownError (toError "Unknown error" x)) /\
    (forall e, x = ThrownError e -> result run = operation k last).
Proof.
  intros Hk Hinit Hs Hbefore Hat run. subst run. unfold withRetry.
  destruct (retryLoop_failures env Hinit T operation maxRetries retryDelay
              (Z.to_nat (k - 1)) (Z.to_nat maxRetries) 1 None s)
    as (clients & last & x & Hlen & Htrace & Hx & Hres).
  - lia.
  - exact Hs.
  - intros j c Hj. split; [lia|]. apply Hbefore. lia.
  - intros c. replace (1 + Z.of_nat (Z.to_nat (k - 1))) with k by lia.
    destruct (Hat c) as (x & Hx & Hc). exists x. now rewrite Hc.
  - replace (1 + Z.of_nat (Z.to_nat (k - 1))) with k in * by lia.
    exists clients, last, x.
    split; [exact Hlen|]. split; [exact Htrace|]. split; [|split; [|split]].
    + rewrite Htrace, runs_failedAttempts, length_app, Hlen. cbn. lia.
    + intros ->. rewrite Htrace. now destruct clients.
    + exact Hx.
    + split; [exact Hres|]. intros e ->. now rewrite Hres, Hx.
Qed.

Lemma withRetry_rejects_other_errors_at_once_witness :
  let run := withRetry reachableEnv failsTwice 3 1000 initialSupervisor in
  exists clients last x,
    length clients = 1%nat /\
    trace run = failedAttempts 1000 1 (clients ++ [last]) /\
    runs (trace run) = 2%nat /\
    (2 = 1 -> trace run = [EvRun 1 last]) /\
    failsTwice 2 last = Throw x /\
    result run = Throw (ThrownError (toError "Unknown error" x)) /\
    (forall e, x = ThrownError e -> result run = failsTwice 2 last).
Proof.
  apply (withRetry_rejects_other_errors_at_once unit reachableEnv failsTwice
           3 1000 initialSupervisor 2).
  - lia.
  - reflexivity.
  - reflexivity.
  - intros j c Hj. assert (j = 1) as -> by lia. eexists. split; reflexivity.
  - intros c. eexists. split; reflexivity.
Defined.

(** A run whose second attempt fails with a validation error, and a run
    whose first attempt does, computed. *)
Example withRetry_stops_at_validation_error :
  let run := withRetry reachableEnv failsTwice 3 1000 initialSupervisor in
  trace run = [EvRun 1 0%nat; EvReconnect; EvSleep 1000; EvRun 2 1%nat] /\
  result run = Throw validationError /\
  let run1 := withRetry reachableEnv (alwaysFails validationError) 3 1000
                initialSupervisor in
  trace run1 = [EvRun 1 0%nat] /\ result run1 = Throw validationError.
Proof. vm_compute. repeat split. Qed.

(** An attempt can also fail before the operation is called, when no client
    can be acquired; the error is then treated like one of the operation. *)
Lemma withRetry_acquire_failure
    (T : Type) (env : Env) (operation : Z -> Client -> Outcome T)
    (maxRetries retryDelay : Z) (s s1 : Supervisor) (x : Thrown) :
  1 <= maxRetries ->
  getPrismaClientAsync env s = (Throw x, s1) ->
  isConnectionError (toError "Unknown error" x) = false ->
  withRetry env operation maxRetries retryDelay s =
  mkRetryRun (Throw (ThrownError (toError "Unknown error" x))) [] s1.
Proof.
  intros HN Hacq Hc. unfold withRetry.
  destruct (Z.to_nat maxRetries) as [|n] eqn:E; [lia|].
  cbn [retryLoop]. now rewrite Hacq, Hc.
Qed.

(** * Further properties *)

(** ** The retry executor: bounds *)

Section RetryBounds.
Variable T : Type.
Variable env : Env.
Variable operation : Z -> Client -> Outcome T.
Variables maxRetries retryDelay : Z.

Lemma retryLoop_runs_le (remaining : nat) :
  forall attempt lastError s,
    (runs (trace (retryLoop env operation maxRetries retryDelay
                    remaining attempt lastError s)) <= remaining)%nat.
Proof.
  induction remaining as [|remaining IH]; intros attempt lastError s.
  - cbn. lia.
  - cbn [retryLoop].
    destruct (getPrismaClientAsync env s) as [[prisma|x] s1].
    + destruct (operation attempt prisma) as [v|x]; [cbn; lia|].
      destruct (_ && _); cbn [trace app runs]; [|lia].
      specialize (IH (attempt + 1) (Some (toError "Unknown error" x))
                    (snd (reconnectPrisma env s1))). lia.
    + destruct (_ && _); cbn [trace app runs]; [|lia].
      specialize (IH (attempt + 1) (Some (toError "Unknown error" x))
                    (snd (reconnectPrisma env s1))). lia.
Qed.

Lemma retryLoop_rejects_with_Error (remaining : nat) :
  forall attempt lastError s x,
    result (retryLoop env operation maxRetries retryDelay
              remaining attempt lastError s) = Throw x ->
    exists e, x = ThrownError e.
Proof.
  induction remaining as [|remaining IH]; intros attempt lastError s x.
  - cbn. intros [= <-]. eauto.
  - cbn [retryLoop].
    destruct (getPrismaClientAsync env s) as [[prisma|y] s1].
    + destruct (operation attempt prisma) as [v|y]; [discriminate|].
      destruct (_ && _); cbn [result]; [apply IH|].
      intros [= <-]. eauto.
    + destruct (_ && _); cbn [result]; [apply IH|].
      intros [= <-]. eauto.
Qed.

Lemma retryLoop_step (remaining : nat) (attempt : Z) (lastError : option JsError)
    (s : Supervisor) :
  retryLoop env operation maxRetries retryDelay (S remaining) attempt lastError s =
  let '(acquired, s1) := getPrismaClientAsync env s in
  let '(settled, ran) :=
    match acquired with
    | Ok prisma => (operation attempt prisma, [EvRun attempt prisma])
    | Throw x => (Throw x, [])
    end in
  match settled with
  | Ok v => mkRetryRun (Ok v) ran s1
  | Throw error =>
    let lastError := toError "Unknown error" error in
    if isConnectionError lastError && (attempt <? maxRetries)%Z then
      let s2 := snd (reconnectPrisma env s1) in
      let rest := retryLoop env operation maxRetries retryDelay
                    remaining (attempt + 1) (Some lastError) s2 in
      mkRetryRun (result rest)
        (ran ++ EvReconnect :: EvSleep (retryDelay * attempt) :: trace rest)%list
        (final rest)
    else
      mkRetryRun (Throw (ThrownError lastError)) ran s1
  end.
Proof. reflexivity. Qed.

Lemma reconnects_app (tr1 tr2 : list RetryEvent) :
  reconnects (tr1 ++ tr2) = (reconnects tr1 + reconnects tr2)%nat.
Proof.
  induction tr1 as [|[a c| |ms] tr1 IH]; cbn [app reconnects]; [reflexivity| | |];
    rewrite IH; reflexivity.
Qed.

Lemma slept_app (tr1 tr2 : list RetryEvent) :
  slept (tr1 ++ tr2) = slept tr1 + slept tr2.
Proof.
  induction tr1 as [|[a c| |ms] tr1 IH]; cbn [app slept]; [reflexivity| | |];
    rewrite IH; lia.
Qed.

Lemma retryLoop_waits (remaining : nat) :
  forall attempt lastError s,
    0 <= retryDelay -> 1 <= attempt ->
    Z.of_nat (S remaining) = maxRetries - attempt + 1 ->
    let tr := trace (retryLoop env operation maxRetries retryDelay
                       (S remaining) attempt lastError s) in
    Z.of_nat (reconnects tr) <= maxRetries - attempt /\
    2 * slept tr <=
      retryDelay * (maxRetries - attempt) * (maxRetries + attempt - 1) /\
    0 <= slept tr.
Proof.
  induction remaining as [|remaining IH]; intros attempt lastError s Hd Ha Hrem tr;
    subst tr; rewrite retryLoop_step; cbv zeta.
  all: assert (Hstop : Z.of_nat 0 <= maxRetries - attempt /\
              2 * 0 <= retryDelay * (maxRetries - attempt) * (maxRetries + attempt - 1) /\
              0 <= 0)
    by (split; [lia | split; [|lia]]; cbn;
        repeat apply Z.mul_nonneg_nonneg; lia).
  - assert (E : (attempt <? maxRetries)%Z = false) by (apply Z.ltb_ge; lia).
    destruct (getPrismaClientAsync env s) as [[prisma|x] s1];
      [destruct (operation attempt prisma) as [v|x]|];
      rewrite ?E, ?andb_false_r; exact Hstop.
  - assert (Hgo : (attempt <? maxRetries)%Z = true ->
              forall ran,
                reconnects ran = 0%nat -> slept ran = 0 ->
                forall last s2,
                let tr := (ran ++ EvReconnect :: EvSleep (retryDelay * attempt) ::
                           trace (retryLoop env operation maxRetries retryDelay
                                    (S remaining) (attempt + 1) last s2))%list in
                Z.of_nat (reconnects tr) <= maxRetries - attempt /\
                2 * slept tr <=
                  retryDelay * (maxRetries - attempt) * (maxRetries + attempt - 1) /\
                0 <= slept tr).
    { intros Hlt%Z.ltb_lt ran Hr0 Hs0 last s2 tr.
      destruct (IH (attempt + 1) last s2) as (Hr & Hs & Hpos); [lia | lia | lia |].
      set (rest := trace (retryLoop env operation maxRetries retryDelay
                            (S remaining) (attempt + 1) last s2)) in *.
      assert (Er : reconnects tr = S (reconnects rest)).
      { subst tr. rewrite reconnects_app, Hr0. reflexivity. }
      assert (Es : slept tr = retryDelay * attempt + slept rest).
      { subst tr. rewrite slept_app, Hs0. reflexivity. }
      rewrite Er, Es. nia. }
    destruct (getPrismaClientAsync env s) as [[prisma|x] s1].
    + destruct (operation attempt prisma) as [v|x]; [exact Hstop|].
      destruct (isConnectionError _); cbn [andb]; [|exact Hstop].
      destruct (attempt <? maxRetries)%Z eqn:E; [|exact Hstop].
      cbn [trace]. exact (Hgo eq_refl [EvRun attempt prisma] eq_refl eq_refl _ _).
    + destruct (isConnectionError _); cbn [andb]; [|exact Hstop].
      destruct (attempt <? maxRetries)%Z eqn:E; [|exact Hstop].
      cbn [trace]. exact (Hgo eq_refl [] eq_refl eq_refl _ _).
Qed.

End RetryBounds.

(** X1: whatever the operation, the environment and the state, [withRetry]
    calls the operation at most [maxRetries] times. *)
Theorem withRetry_calls_at_most_maxRetries
    (T : Type) (env : Env) (operation : Z -> Client -> Outcome T)
    (maxRetries retryDelay : Z) (s : Supervisor) :
  (runs (trace (withRetry env operation maxRetries retryDelay s))
   <= Z.to_nat maxRetries)%nat.
Proof. apply retryLoop_runs_le. Qed.

(** X2: what [withRetry] rejects with is always an [Error] object, also when
    the operation or the acquisition threw something else. *)
Theorem withRetry_rejects_with_an_Error
    (T : Type) (env : Env) (operation : Z -> Client -> Outcome T)
    (maxRetries retryDelay : Z) (s : Supervisor) (x : Thrown) :
  result (withRetry env operation maxRetries retryDelay s) = Throw x ->
  exists e, x = ThrownError e.
Proof. apply retryLoop_rejects_with_Error. Qed.

Lemma withRetry_rejects_with_an_Error_witness :
  exists e, ThrownError (mkError "Unknown error") = ThrownError e.
Proof.
  apply (withRetry_rejects_with_an_Error unit reachableEnv
           (alwaysFails (ThrownOther "timeout")) 3 1000 initialSupervisor).
  reflexivity.
Defined.

(** X3: a run of [withRetry] reconnects at most [maxRetries - 1] times and
    spends at most [retryDelay * maxRetries * (maxRetries - 1) / 2] ms in its
    timers. *)
Theorem withRetry_waiting_time_bounded
    (T : Type) (env : Env) (operation : Z -> Client -> Outcome T)
    (maxRetries retryDelay : Z) (s : Supervisor) :
  1 <= maxRetries -> 0 <= retryDelay ->
  let tr := trace (withRetry env operation maxRetries retryDelay s) in
  Z.of_nat (reconnects tr) <= maxRetries - 1 /\
  0 <= slept tr /\
  2 * slept tr <= retryDelay * maxRetries * (maxRetries - 1).
Proof.
  intros HN Hd tr. subst tr. unfold withRetry.
  destruct (Z.to_nat maxRetries) as [|n] eqn:E; [lia|].
  destruct (retryLoop_waits T env operation maxRetries retryDelay n 1 None s)
    as (Hr & Hs & Hpos); [lia | lia | lia |].
  split; [exact Hr|]. split; [exact Hpos|]. nia.
Qed.

Lemma withRetry_waiting_time_bounded_witness :
  let tr := trace (withRetry reachableEnv (alwaysFails refusedError) 3 1000
                     initialSupervisor) in
  Z.of_nat (reconnects tr) <= 3 - 1 /\
  0 <= slept tr /\
  2 * slept tr <= 1000 * 3 * (3 - 1).
Proof.
  apply (withRetry_waiting_time_bounded unit reachableEnv
           (alwaysFails refusedError) 3 1000 initialSupervisor); lia.
Defined.

(** X4: with [maxRetries] zero or negative, [withRetry] neither acquires a
    client nor calls the operation; it rejects with
    [Error('Operation failed after retries')]. *)
Theorem withRetry_without_attempts
    (T : Type) (env : Env) (operation : Z -> Client -> Outcome T)
    (maxRetries retryDelay : Z) (s : Supervisor) :
  maxRetries <= 0 ->
  withRetry env operation maxRetries retryDelay s =
  mkRetryRun (Throw (ThrownError (mkError "Operation failed after retries"))) [] s.
Proof.
  intros HN. unfold withRetry.
  replace (Z.to_nat maxRetries) with 0%nat by lia. reflexivity.
Qed.

Lemma withRetry_without_attempts_witness :
  withRetry reachableEnv (alwaysFails refusedError) 0 1000 initialSupervisor =
  mkRetryRun (Throw (ThrownError (mkError "Operation failed after retries"))) []
    initialSupervisor.
Proof.
  apply (withRetry_without_attempts unit reachableEnv
           (alwaysFails refusedError) 0 1000 initialSupervisor). lia.
Defined.

Section Recovery.
Variable env : Env.
Hypothesis Hinit : forall p, init_outcome env p = None.
Variable T : Type.
Variable operation : Z -> Client -> Outcome T.
Variables maxRetries retryDelay : Z.

Lemma retryLoop_recovers (m : nat) :
  forall remaining attempt lastError s,
    (m < remaining)%nat ->
    initFailed s = false ->
    (forall j c, attempt <= j < attempt + Z.of_nat m ->
       j < maxRetries /\
       exists x, operation j c = Throw x /\
                 isConnectionError (toError "Unknown error" x) = true) ->
    (forall c, exists v, operation (attempt + Z.of_nat m) c = Ok v) ->
    let run := retryLoop env operation maxRetries retryDelay
                 remaining attempt lastError s in
    exists clients last,
      length clients = m /\
      trace run = failedAttempts retryDelay attempt (clients ++ [last]) /\
      result run = operation (attempt + Z.of_nat m) last.
Proof.
  induction m as [|m IH]; intros remaining attempt lastError s Hrem Hs Hretry Hok.
  - destruct remaining as [|remaining]; [lia|]. cbn [retryLoop].
    change (Z.of_nat 0) with 0 in *. rewrite Z.add_0_r in *.
    destruct (getPrismaClientAsync_succeeds env Hinit s Hs) as (c & s1 & -> & Hs1).
    destruct (Hok c) as (v & Hv). rewrite Hv.
    exists [], c. cbn. rewrite Hv. auto.
  - destruct remaining as [|remaining]; [lia|]. cbn [retryLoop].
    destruct (getPrismaClientAsync_succeeds env Hinit s Hs) as (c & s1 & -> & Hs1).
    destruct (Hretry attempt c) as (Hlt & x & Hx & Hconn); [lia|].
    rewrite Hx, Hconn. apply Z.ltb_lt in Hlt as ->. cbn [andb].
    pose proof (reconnectPrisma_keeps_acquirable env Hinit s1 Hs1) as Hs2.
    destruct (IH remaining (attempt + 1)
                (Some (toError "Unknown error" x))
                (snd (reconnectPrisma env s1)))
      as (clients & last & Hlen & Htrace & Hres);
      [lia | exact Hs2 | | |].
    + intros j c' Hj. apply Hretry. lia.
    + intros c'.
      replace (attempt + 1 + Z.of_nat m) with (attempt + Z.of_nat (S m)) by lia.
      apply Hok.
    + exists (c :: clients), last. cbn [trace result length app].
      rewrite failedAttempts_more, Htrace, Hlen, Hres.
      replace (attempt + Z.of_nat (S m)) with (attempt + 1 + Z.of_nat m) by lia.
      auto.
Qed.

End Recovery.

(** X5: when a client can be acquired for every attempt, attempts [1] to
    [k - 1] fail with connection errors and attempt [k <= maxRetries]
    succeeds, [withRetry] resolves with the value of call [k], having
    reconnected and slept [retryDelay * j] after each failed attempt [j]; a
    success of the first attempt involves no reconnect and no sleep. *)
Theorem withRetry_recovers
    (T : Type) (env : Env) (operation : Z -> Client -> Outcome T)
    (maxRetries retryDelay : Z) (s : Supervisor) (k : Z) :
  1 <= k <= maxRetries ->
  (forall p, init_outcome env p = None) -> initFailed s = false ->
  (forall j c, 1 <= j < k ->
     exists x, operation j c = Throw x /\
               isConnectionError (toError "Unknown error" x) = true) ->
  (forall c, exists v, operation k c = Ok v) ->
  let run := withRetry env operation maxRetries retryDelay s in
  exists clients last v,
    length clients = Z.to_nat (k - 1) /\
    trace run = failedAttempts retryDelay 1 (clients ++ [last]) /\
    runs (trace run) = Z.to_nat k /\
    (k = 1 -> trace run = [EvRun 1 last]) /\
    operation k last = Ok v /\
    result run = Ok v.
Proof.
  intros Hk Hinit Hs Hbefore Hat run. subst run. unfold withRetry.
  destruct (retryLoop_recovers env Hinit T operation maxRetries retryDelay
              (Z.to_nat (k - 1)) (Z.to_nat maxRetries) 1 None s)
    as (clients & last & Hlen & Htrace & Hres).
  - lia.
  - exact Hs.
  - intros j c Hj. split; [lia|]. apply Hbefore. lia.
  - intros c. replace (1 + Z.of_nat (Z.to_nat (k - 1))) with k by lia. apply Hat.
  - replace (1 + Z.of_nat (Z.to_nat (k - 1))) with k in * by lia.
    destruct (Hat last) as (v & Hv).
    exists clients, last, v.
    split; [exact Hlen|]. split; [exact Htrace|]. split; [|split; [|split]].
    + rewrite Htrace, runs_failedAttempts, length_app, Hlen. cbn. lia.
    + intros ->. rewrite Htrace. now destruct clients.
    + exact Hv.
    + now rewrite Hres.
Qed.

Lemma withRetry_recovers_witness :
  let run := withRetry reachableEnv (succeedsAt 3 42) 3 1000 initialSupervisor in
  exists clients last v,
    length clients = 2%nat /\
    trace run = failedAttempts 1000 1 (clients ++ [last]) /\
    runs (trace run) = 3%nat /\
    (3 = 1 -> trace run = [EvRun 1 last]) /\
    succeedsAt 3 42 3 last = Ok v /\
    result run = Ok v.
Proof.
  apply (withRetry_recovers Z reachableEnv (succeedsAt 3 42) 3 1000
           initialSupervisor 3).
  - lia.
  - reflexivity.
  - reflexivity.
  - intros j c Hj. exists refusedError. unfold succeedsAt.
    replace (j <? 3)%Z with true by (symmetry; apply Z.ltb_lt; lia).
    split; reflexivity.
  - intros c. exists 42. reflexivity.
Defined.

(** ** Runs of the supervisor *)

Section SupervisorRuns.
Variable env : Env.

Lemma invariant_initial : SupervisorInvariant initialSupervisor.
Proof.
  constructor; cbn; try discriminate; reflexivity.
Qed.

Lemma invariant_initializePrisma (s : Supervisor) :
  SupervisorInvariant s -> SupervisorInvariant (snd (initializePrisma s)).
Proof.
  intros Hs. unfold initializePrisma.
  destruct (prismaInstance s) as [c|] eqn:Hi; [exact Hs|].
  destruct (initPromise s) as [p|] eqn:Hip; [exact Hs|].
  destruct Hs as [Hlive Htimer Hh Hinit Hp].
  constructor; cbn.
  - discriminate.
  - exact Htimer.
  - exact Hh.
  - intros p [= <-]. rewrite lookup_insert_eq. eauto.
  - intros p st. destruct (decide (nextPromise s = p)) as [<-|Hne].
    + rewrite lookup_insert_eq. intros [= <-]. split; [lia | discriminate].
    + rewrite lookup_insert_ne by exact Hne. intros H.
      destruct (Hp p st H) as [Hlt Hc]. split; [lia | exact Hc].
Qed.

Lemma invariant_initBody (p : PromiseId) (s : Supervisor) :
  SupervisorInvariant s -> (p < nextPromise s)%nat ->
  SupervisorInvariant (snd (initBody env p s)).
Proof.
  intros [Hlive Htimer Hh Hinit Hp] Hlt. unfold initBody.
  destruct (init_outcome env p) as [x|]; constructor; cbn.
  - exact Hlive.
  - exact Htimer.
  - exact Hh.
  - intros q Hq. apply lookup_insert_is_Some'. right. now apply Hinit.
  - intros q st. destruct (decide (p = q)) as [<-|Hne].
    + rewrite lookup_insert_eq. intros [= <-]. split; [exact Hlt | discriminate].
    + rewrite lookup_insert_ne by exact Hne. apply Hp.
  - intros c [= <-]. auto.
  - intros c [= <-]. lia.
  - rewrite Hh. symmetry. apply seq_S.
  - intros q Hq. apply lookup_insert_is_Some'. right. now apply Hinit.
  - intros q st. destruct (decide (p = q)) as [<-|Hne].
    + rewrite lookup_insert_eq. intros [= <-]. split; [exact Hlt|].
      intros c [= <-]. lia.
    + rewrite lookup_insert_ne by exact Hne. intros H.
      destruct (Hp q st H) as [Hq Hc]. split; [exact Hq|].
      intros c Hst. specialize (Hc c Hst). lia.
Qed.

Lemma invariant_getPrismaClientAsync (s : Supervisor) :
  SupervisorInvariant s ->
  SupervisorInvariant (snd (getPrismaClientAsync env s)).
Proof.
  intros Hs. unfold getPrismaClientAsync.
  pose proof (invariant_initializePrisma s Hs) as Hs1.
  destruct (initializePrisma s) as [[c|p] s1] eqn:E; cbn [snd] in Hs1;
    [exact Hs1|].
  assert (Hlt : (p < nextPromise s1)%nat).
  { unfold initializePrisma in E.
    destruct (prismaInstance s) as [c|]; [discriminate|].
    destruct (initPromise s) as [q|] eqn:Hq.
    - injection E as E1 E2. subst p s1.
      destruct (inv_init s Hs q Hq) as [st Hst].
      now destruct (inv_promises s Hs q st Hst).
    - injection E as E1 E2. subst p s1. cbn. lia. }
  unfold await. destruct (promiseState s1 p); [|exact Hs1|exact Hs1].
  now apply invariant_initBody.
Qed.

Lemma invariant_getPrismaClient (s : Supervisor) :
  SupervisorInvariant s -> SupervisorInvariant (getPrismaClient s).
Proof.
  intros Hs. unfold getPrismaClient.
  destruct (prismaInstance s); [exact Hs|]. now apply invariant_initializePrisma.
Qed.

Lemma invariant_reconnectPrisma (s : Supervisor) :
  SupervisorInvariant s -> SupervisorInvariant (snd (reconnectPrisma env s)).
Proof.
  intros Hs. unfold reconnectPrisma.
  destruct (isReconnecting s); [now apply invariant_getPrismaClientAsync|].
  match goal with |- context [getPrismaClientAsync env ?s1] =>
    assert (Hs1 : SupervisorInvariant s1)
  end.
  { destruct Hs as [Hlive Htimer Hh Hinit Hp].
    constructor; cbn; try discriminate; assumption. }
  apply invariant_getPrismaClientAsync in Hs1.
  destruct (getPrismaClientAsync env _) as [r s2]. cbn [snd] in Hs1.
  assert (Hfin : SupervisorInvariant
            {| prismaInstance := prismaInstance s2; initPromise := initPromise s2;
               isReconnecting := false;
               connectionCheckTimer := connectionCheckTimer s2;
               promises := promises s2; nextPromise := nextPromise s2;
               constructed := constructed s2; exitHandlers := exitHandlers s2 |}).
  { destruct Hs1 as [Hlive Htimer Hh Hinit Hp]. now constructor. }
  destruct r as [client|x]; [destruct (connect_outcome env client)|]; exact Hfin.
Qed.

Lemma invariant_step (st : SupervisorStep) (s : Supervisor) :
  SupervisorInvariant s -> SupervisorInvariant (supervisorStep env st s).
Proof.
  intros Hs. destruct st as [|p| | |]; cbn [supervisorStep].
  - now apply invariant_initializePrisma.
  - destruct (promises s !! p) as [[| |]|] eqn:E; try exact Hs.
    apply invariant_initBody; [exact Hs|].
    now destruct (inv_promises s Hs p Pending E).
  - now apply invariant_getPrismaClientAsync.
  - now apply invariant_getPrismaClient.
  - now apply invariant_reconnectPrisma.
Qed.

Lemma invariant_run (steps : list SupervisorStep) :
  forall s, SupervisorInvariant s ->
            SupervisorInvariant (supervisorRun env steps s).
Proof.
  unfold supervisorRun.
  induction steps as [|st steps IH]; intros s Hs; [exact Hs|].
  cbn [fold_left]. apply IH. now apply invariant_step.
Qed.




End SupervisorRuns.

Lemma initFailed_step (env : Env) (st : SupervisorStep) (s : Supervisor) :
  (forall p, init_outcome env p = None) ->
  initFailed s = false -> initFailed (supervisorStep env st s) = false.
Proof.
  intros Hinit Hs. destruct st as [|p| | |]; cbn [supervisorStep].
  - unfold initializePrisma. destruct (prismaInstance s) eqn:Hi; [exact Hs|].
    destruct (initPromise s) eqn:Hp; [exact Hs|].
    unfold initFailed, promiseState. cbn. now rewrite lookup_insert_eq.
  - destruct (promises s !! p) as [[| |]|]; try exact Hs.
    unfold initBody. now rewrite Hinit.
  - destruct (getPrismaClientAsync_succeeds env Hinit s Hs) as (c & s' & -> & Hs').
    exact Hs'.
  - unfold getPrismaClient, initializePrisma.
    destruct (prismaInstance s) eqn:Hi; [exact Hs|].
    destruct (initPromise s) eqn:Hp; [exact Hs|].
    unfold initFailed, promiseState. cbn. now rewrite lookup_insert_eq.
  - now apply reconnectPrisma_keeps_acquirable.
Qed.

(** X6: in every state the supervisor reaches, the live client is the client
    constructed last, and the keep-alive timer probes it. *)
Theorem live_client_is_latest_and_probed
    (env : Env) (steps : list SupervisorStep) (c : Client) :
  let s := supervisorRun env steps initialSupervisor in
  prismaInstance s = Some c ->
  constructed s = S c /\ connectionCheckTimer s = Some c.
Proof.
  intros s Hc.
  exact (inv_live s (invariant_run env steps _ invariant_initial) c Hc).
Qed.

Lemma live_client_is_latest_and_probed_witness :
  let s := supervisorRun reachableEnv [StepAcquire; StepReconnect]
             initialSupervisor in
  constructed s = 2%nat /\ connectionCheckTimer s = Some 1%nat.
Proof.
  apply (live_client_is_latest_and_probed reachableEnv
           [StepAcquire; StepReconnect] 1%nat).
  reflexivity.
Defined.

(** X7: the exit handlers registered with the process are, in every state
    the supervisor reaches, one per client constructed so far, in the order
    of construction: a reconnect adds handlers and nothing removes them. *)
Theorem exit_handlers_accumulate (env : Env) (steps : list SupervisorStep) :
  let s := supervisorRun env steps initialSupervisor in
  exitHandlers s = seq 0 (constructed s).
Proof.
  intros s. exact (inv_handlers s (invariant_run env steps _ invariant_initial)).
Qed.

(** X8: when the initialization body never throws, no run of the supervisor
    reaches a state with a failed initialization cached, so an acquire
    succeeds in every state reached. *)
Theorem acquirable_in_every_reachable_state
    (env : Env) (steps : list SupervisorStep) :
  (forall p, init_outcome env p = None) ->
  let s := supervisorRun env steps initialSupervisor in
  initFailed s = false /\
  exists c, fst (getPrismaClientAsync env s) = Ok c.
Proof.
  intros Hinit s.
  assert (Hs : initFailed s = false).
  { subst s. unfold supervisorRun.
    assert (H0 : initFailed initialSupervisor = false) by reflexivity.
    revert H0. generalize initialSupervisor.
    induction steps as [|st steps IH]; intros s0 H0; [exact H0|].
    cbn [fold_left]. apply IH. now apply initFailed_step. }
  split; [exact Hs|].
  destruct (getPrismaClientAsync_succeeds env Hinit s Hs) as (c & s' & E & _).
  exists c. now rewrite E.
Qed.

Lemma acquirable_in_every_reachable_state_witness :
  let s := supervisorRun reachableEnv
             [StepGetClient; StepReconnect; StepSettle 0%nat]
             initialSupervisor in
  initFailed s = false /\
  exists c, fst (getPrismaClientAsync reachableEnv s) = Ok c.
Proof.
  apply (acquirable_in_every_reachable_state reachableEnv
           [StepGetClient; StepReconnect; StepSettle 0%nat]).
  reflexivity.
Defined.

Lemma reconnectPrisma_after_initialization (env : Env) (s : Supervisor) :
  isReconnecting s = false ->
  init_outcome env (nextPromise s) = None ->
  reconnectPrisma env s =
  (match connect_outcome env (constructed s) with
   | None => Ok (constructed s)
   | Some x => Throw x
   end,
   {| prismaInstance := Some (constructed s);
      initPromise := Some (nextPromise s);
      isReconnecting := false;
      connectionCheckTimer := Some (constructed s);
      promises := <[nextPromise s := Fulfilled (constructed s)]>
                    (<[nextPromise s := Pending]> (promises s));
      nextPromise := S (nextPromise s);
      constructed := S (constructed s);
      exitHandlers := exitHandlers s ++ [constructed s] |}).
Proof.
  intros Hflag Hok. unfold reconnectPrisma. rewrite Hflag.
  unfold getPrismaClientAsync, initializePrisma, await, promiseState. cbn.
  rewrite lookup_insert_eq. cbn. unfold initBody. cbn. rewrite Hok. cbn.
  now destruct (connect_outcome env (constructed s)).
Qed.





(** ** Health checks *)

(** X11: with a failed initialization cached (every acquire rejects, see
    C2), [checkDatabaseConnection] recovers through [reconnectPrisma] when a
    new initialization succeeds: it installs a new client and returns
    whether [$connect] on it worked, without running the probe on the new
    client and without updating [lastConnectionCheck]. *)
Theorem checkDatabaseConnection_recovers_from_failed_initialization
    (env : Env) (probe : Client -> option Thrown) (now : Z) (h : Health)
    (p : PromiseId) (x : Thrown) :
  prismaInstance (supervisor h) = None ->
  initPromise (supervisor h) = Some p ->
  promiseState (supervisor h) p = Rejected x ->
  isReconnecting (supervisor h) = false ->
  init_outcome env (nextPromise (supervisor h)) = None ->
  let fresh := constructed (supervisor h) in
  let r := checkDatabaseConnection env probe now h in
  fst r = match connect_outcome env fresh with None => true | Some _ => false end /\
  prismaInstance (supervisor (snd r)) = Some fresh /\
  initFailed (supervisor (snd r)) = false /\
  lastConnectionCheck (snd r) = lastConnectionCheck h.
Proof.
  intros Hi Hp Hx Hflag Hok fresh r.
  assert (Eacq : getPrismaClientAsync env (supervisor h) = (Throw x, supervisor h)).
  { unfold getPrismaClientAsync, initializePrisma. rewrite Hi, Hp.
    unfold await. now rewrite Hx. }
  assert (Er : r = (match connect_outcome env fresh with
                    | None => true
                    | Some _ => false
                    end,
                    {| supervisor := snd (reconnectPrisma env (supervisor h));
                       lastConnectionCheck := lastConnectionCheck h |})).
  { subst r. unfold checkDatabaseConnection. rewrite Eacq.
    rewrite (reconnectPrisma_after_initialization env (supervisor h) Hflag Hok).
    cbn [snd]. fold fresh. now destruct (connect_outcome env fresh). }
  rewrite Er. cbn [fst snd supervisor lastConnectionCheck].
  rewrite (reconnectPrisma_after_initialization env (supervisor h) Hflag Hok).
  cbn [snd]. split; [reflexivity|]. split; [reflexivity|].
  split; reflexivity.
Qed.

Lemma checkDatabaseConnection_recovers_from_failed_initialization_witness :
  let s := snd (getPrismaClientAsync firstInitFailsEnv initialSupervisor) in
  let h := {| supervisor := s; lastConnectionCheck := 0 |} in
  let r := checkDatabaseConnection firstInitFailsEnv (fun _ => None) 5000 h in
  fst (getPrismaClientAsync firstInitFailsEnv s) =
    Throw (ThrownError (mkError "Invalid URL")) /\
  fst r = true /\
  prismaInstance (supervisor (snd r)) = Some 0%nat /\
  lastConnectionCheck (snd r) = 0.
Proof.
  intros s h r.
  destruct (checkDatabaseConnection_recovers_from_failed_initialization
              firstInitFailsEnv (fun _ => None) 5000 h 0%nat
              (ThrownError (mkError "Invalid URL"))
              eq_refl eq_refl eq_refl eq_refl eq_refl)
    as (H1 & H2 & _ & H4).
  split; [reflexivity|]. split; [exact H1|]. split; [exact H2 | exact H4].
Defined.

(** X12: [getConnectionStats] does not recover: with a failed
    initialization cached it reports the module as disconnected, with the
    message of the cached error, and leaves the supervisor as it was. *)
Theorem getConnectionStats_reports_failed_initialization
    (env : Env) (probe : Client -> option Thrown) (startTime endTime : Z)
    (s : Supervisor) (p : PromiseId) (x : Thrown) :
  prismaInstance s = None ->
  initPromise s = Some p ->
  promiseState s p = Rejected x ->
  getConnectionStats env probe startTime endTime s =
  (StatsDisconnected (message (toError "Unknown error" x)), s).
Proof.
  intros Hi Hp Hx. unfold getConnectionStats, getPrismaClientAsync, initializePrisma.
  rewrite Hi, Hp. unfold await. now rewrite Hx.
Qed.

Lemma getConnectionStats_reports_failed_initialization_witness :
  let s := snd (getPrismaClientAsync firstInitFailsEnv initialSupervisor) in
  getConnectionStats reachableEnv (fun _ => None) 10 20 s =
  (StatsDisconnected "Invalid URL", s).
Proof.
  intros s.
  apply (getConnectionStats_reports_failed_initialization reachableEnv
           (fun _ => None) 10 20 s 0%nat (ThrownError (mkError "Invalid URL")));
    reflexivity.
Defined.

(** X13: a keep-alive probe that succeeded at time [t] spares the next
    check: [ensureConnection] called no later than [t + 15000] runs no probe
    and no reconnect, it only acquires the client; the bound is inclusive. *)
Theorem keepAlive_spares_the_probe
    (env : Env) (tick probe : Client -> option Thrown) (t now checkedAt : Z)
    (h : Health) (client : Client) :
  connectionCheckTimer (supervisor h) = Some client ->
  tick client = None ->
  now - t <= 15000 ->
  ensureConnection env probe now checkedAt (keepAliveTick tick t h) =
  (fst (getPrismaClientAsync env (supervisor h)),
   {| supervisor := snd (getPrismaClientAsync env (supervisor h));
      lastConnectionCheck := t |}).
Proof.
  intros Htimer Htick Hgap. unfold keepAliveTick. rewrite Htimer, Htick.
  unfold ensureConnection, CONNECTION_CHECK_INTERVAL. cbn [lastConnectionCheck supervisor].
  replace (now - t >? 15000)%Z with false by (symmetry; rewrite Z.gtb_ltb; apply Z.ltb_ge; lia).
  now destruct (getPrismaClientAsync env (supervisor h)).
Qed.

Lemma keepAlive_spares_the_probe_witness :
  let s := snd (getPrismaClientAsync reachableEnv initialSupervisor) in
  let h := {| supervisor := s; lastConnectionCheck := 0 |} in
  ensureConnection reachableEnv (fun _ => Some refusedError) 35000 35001
    (keepAliveTick (fun _ => None) 20000 h) =
  (Ok 0%nat, {| supervisor := s; lastConnectionCheck := 20000 |}).
Proof.
  intros s h.
  apply (keepAlive_spares_the_probe reachableEnv (fun _ => None)
           (fun _ => Some refusedError) 20000 35000 35001 h 0%nat).
  - reflexivity.
  - reflexivity.
  - lia.
Defined.



(** ** Classification of wrapped messages *)

Lemma prefix_split (n h : string) :
  String.prefix n h = true -> exists b, h = n ++ b.
Proof.
  revert h. induction n as [|c n IH]; intros h H.
  - exists h. reflexivity.
  - destruct h as [|c' h]; [discriminate|]. cbn in H.
    destruct (Ascii.ascii_dec c c') as [->|]; [|discriminate].
    destruct (IH h H) as [b ->]. exists b. reflexivity.
Qed.

Lemma includes_split (n h : string) :
  Str.includes n h = true -> exists a b, h = a ++ n ++ b.
Proof.
  induction h as [|c h IH]; cbn [Str.includes].
  - destruct (String.prefix n "") eqn:E; [|discriminate].
    intros _. destruct (prefix_split _ _ E) as [b Hb]. exists "", b. exact Hb.
  - destruct (String.prefix n (String c h)) eqn:E.
    + intros _. destruct (prefix_split _ _ E) as [b Hb]. exists "", b. exact Hb.
    + intros H. destruct (IH H) as (a & b & ->).
      exists (String c a), b. reflexivity.
Qed.

Lemma includes_wrapped (n a m b : string) :
  Str.includes n m = true -> Str.includes n (a ++ m ++ b) = true.
Proof.
  intros H. destruct (includes_split n m H) as (a' & b' & ->).
  replace (a ++ (a' ++ n ++ b') ++ b) with ((a ++ a') ++ n ++ (b' ++ b))
    by now rewrite !append_assoc.
  apply includes_middle.
Qed.

(** X15: both classifications look at substrings only, so an error stays a
    connection error when its message is wrapped in a longer one, as when
    an error is rethrown with a prefix or a suffix. *)
Theorem classification_survives_wrapping (e : JsError) (a b : string) :
  (isConnectionError e = true ->
   isConnectionError (mkError (a ++ message e ++ b)) = true) /\
  (Logger.isConnectionError e = true ->
   Logger.isConnectionError (mkError (a ++ message e ++ b)) = true).
Proof.
  assert (Hretry : isConnectionError e = true ->
                   isConnectionError (mkError (a ++ message e ++ b)) = true).
  { unfold isConnectionError. cbn [message].
    rewrite !orb_true_iff.
    intros H. repeat destruct H as [H|H];
      apply (includes_wrapped _ a _ b) in H; rewrite H; auto 10. }
  split; [exact Hretry|].
  assert (Hl : forall e', Logger.isConnectionError e' =
                 isConnectionError e' || Str.includes "ConnectorError" (message e')).
  { intros [[|c m]]; reflexivity. }
  rewrite !Hl. cbn [message].
  rewrite !orb_true_iff. intros [H|H].
  - left. now apply Hretry.
  - right. now apply includes_wrapped.
Qed.

Lemma classification_survives_wrapping_witness :
  isConnectionError
    (mkError ("Invalid `prisma.log.create()` invocation: " ++
              "Server has closed the connection" ++ ".")) = true.
Proof.
  apply (classification_survives_wrapping
           (mkError "Server has closed the connection")
           "Invalid `prisma.log.create()` invocation: " ".").
  reflexivity.
Defined.

(** ** More on the logger's database sink *)

Section SinkMore.
Import Logger.

(** X16: in every state reached from start-up, by any calls and callbacks
    in any environment, a counter at or above the threshold comes with the
    pause flag set: the pause is set by the very failure that brings the
    counter to the threshold. *)
Theorem counter_at_threshold_means_paused
    (env : Env) (ds : Datastore) (ts : list Turn) :
  let b := sink (world (snd (turns env ds ts initialSystem))) in
  dbLoggingRetryCount b >= 3 -> dbLoggingPaused b = true.
Proof.
  intros b. subst b.
  apply (breaker_invariant env ds ts initialSystem).
  unfold tripped_is_paused, MAX_DB_LOGGING_RETRIES. cbn. lia.
Qed.

Lemma counter_at_threshold_means_paused_witness :
  let ts := [CallEnable;
             CallLog sampleLog 1000; CallLog sampleLog 1001;
             CallLog sampleLog 1002; CallLog sampleLog 1003;
             RunImmediate 2000; RunImmediate 2001;
             RunImmediate 2002; RunImmediate 2003] in
  let b := sink (world (snd (turns reachableEnv (failingDatastore refusedError)
                               ts initialSystem))) in
  dbLoggingRetryCount b = 4 /\ dbLoggingPaused b = true.
Proof.
  intros ts b. split; [reflexivity|].
  apply (counter_at_threshold_means_paused reachableEnv
           (failingDatastore refusedError) ts).
  vm_compute. discriminate.
Defined.

Lemma persist_ok_sink_all (env : Env) (ds : Datastore) (data : LogData)
    (w w1 : World) (u : unit) :
  persist env ds data w = (Ok u, w1) ->
  sink w1 = {| dbLoggingEnabled := dbLoggingEnabled (sink w);
               dbLoggingRetryCount := 0;
               dbLoggingPaused := dbLoggingPaused (sink w);
               dbLoggingPauseUntil := dbLoggingPauseUntil (sink w) |}.
Proof.
  unfold persist, bind.
  destruct (import_outcome ds) as [x0|]; cbn; [discriminate|].
  pose proof (resolveUserId_sink ds data w) as E1.
  destruct (resolveUserId ds data w) as [[v|x1] w2]; [|discriminate].
  cbn in E1. destruct (result _) as [u'|x2]; [|discriminate].
  intros [= _ <-]. cbn. now rewrite E1.
Qed.

(** X17: a callback whose insertion succeeds sets the counter to 0 and
    changes nothing else: a pause that is in force stays in force until
    [dbLoggingPauseUntil]. *)
Theorem success_resets_the_counter_only
    (env : Env) (ds : Datastore) (data : LogData) (now : Z)
    (w w1 : World) (u : unit) :
  persist env ds data w = (Ok u, w1) ->
  sink (snd (immediateCallback env ds data now w)) =
  {| dbLoggingEnabled := dbLoggingEnabled (sink w);
     dbLoggingRetryCount := 0;
     dbLoggingPaused := dbLoggingPaused (sink w);
     dbLoggingPauseUntil := dbLoggingPauseUntil (sink w) |}.
Proof.
  intros Hp. unfold immediateCallback, tryCatch. rewrite Hp. cbn [snd].
  now apply persist_ok_sink_all in Hp.
Qed.

Lemma success_resets_the_counter_only_witness :
  let b := {| dbLoggingEnabled := true; dbLoggingRetryCount := 3;
              dbLoggingPaused := true; dbLoggingPauseUntil := 90000 |} in
  sink (snd (immediateCallback reachableEnv orphanDatastore sampleLog 61000
               (readyWorld b))) =
  {| dbLoggingEnabled := true; dbLoggingRetryCount := 0;
     dbLoggingPaused := true; dbLoggingPauseUntil := 90000 |}.
Proof.
  intros b.
  eapply (success_resets_the_counter_only reachableEnv orphanDatastore sampleLog
            61000 (readyWorld b)).
  vm_compute. reflexivity.
Defined.

Lemma getPrismaClient_keeps_no_client (s : Supervisor) :
  prismaInstance s = None -> prismaInstance (getPrismaClient s) = None.
Proof.
  intros Hi. unfold getPrismaClient, initializePrisma. rewrite Hi.
  now destruct (initPromise s).
Qed.

(** X18: a log event with a user id that is handled before a client
    exists is dropped: the read of [prisma.user] on the proxy throws, so no
    insertion is attempted and the sink does not count a failure; all the
    callback does is start the initialization. *)
Theorem log_with_user_before_ready_is_dropped
    (env : Env) (ds : Datastore) (data : LogData) (now uid : Z) (w : World) :
  import_outcome ds = None ->
  userId data = Some uid -> uid <> 0 ->
  prismaInstance (db w) = None ->
  immediateCallback env ds data now w =
  (Ok tt, {| db := getPrismaClient (db w); sink := sink w |}).
Proof.
  intros Himp Hu Hnz Hi.
  pose proof (getPrismaClient_keeps_no_client (db w) Hi) as Hnone.
  unfold immediateCallback, tryCatch, persist, bind. rewrite Himp. cbn.
  unfold resolveUserId. rewrite Hu.
  replace (uid =? 0)%Z with false by (symmetry; apply Z.eqb_neq; exact Hnz).
  unfold lookupUser, bind, onDb. cbn.
  unfold lazyProxy_get. cbn. rewrite Hnone. cbn.
  unfold onFailure. cbn. reflexivity.
Qed.

Lemma log_with_user_before_ready_is_dropped_witness :
  let data := withUserId (Some 7) sampleLog in
  immediateCallback reachableEnv orphanDatastore data 5000 (enabledWorld 2) =
  (Ok tt, {| db := getPrismaClient initialSupervisor; sink := sink (enabledWorld 2) |}).
Proof.
  intros data.
  apply (log_with_user_before_ready_is_dropped reachableEnv orphanDatastore
           data 5000 7 (enabledWorld 2)).
  - reflexivity.
  - reflexivity.
  - lia.
  - reflexivity.
Defined.

Lemma take_length (n : nat) :
  forall s, String.length (Str.take n s) = Nat.min n (String.length s).
Proof.
  unfold Str.take. induction n as [|n IH]; intros [|c s]; cbn; auto.
Qed.

Lemma take_prefix (n : nat) :
  forall s, String.prefix (Str.take n s) s = true.
Proof.
  unfold Str.take. induction n as [|n IH]; intros [|c s]; cbn; auto.
  destruct (Ascii.ascii_dec c c) as [_|Hne]; [apply IH | now elim Hne].
Qed.

Lemma take_all (n : nat) :
  forall s, (String.length s <= n)%nat -> Str.take n s = s.
Proof.
  unfold Str.take. induction n as [|n IH]; intros [|c s]; cbn; auto.
  - lia.
  - intros H. f_equal. apply IH. lia.
Qed.

(** X19: the message given to [prisma.log.create] is the first 5000
    characters of the event's message: a prefix of it, never longer than
    5000, and the message itself when that has at most 5000 characters. *)
Theorem createInput_truncates_message
    (data : LogData) (validUserId : option Z) (m : string) :
  message data = Some m ->
  exists m',
    Create.message (createInput data validUserId) = Some m' /\
    (String.length m' <= 5000)%nat /\
    String.prefix m' m = true /\
    ((String.length m <= 5000)%nat -> m' = m).
Proof.
  intros Hm. exists (Str.take 5000 m). unfold createInput. cbn [Create.message].
  rewrite Hm. split; [reflexivity|]. split; [|split].
  - rewrite take_length. apply Nat.le_min_l.
  - apply take_prefix.
  - apply take_all.
Qed.

Lemma createInput_truncates_message_witness :
  exists m',
    Create.message (createInput sampleLog None) = Some m' /\
    (String.length m' <= 5000)%nat /\
    String.prefix m' "agents loaded" = true /\
    ((String.length "agents loaded" <= 5000)%nat -> m' = "agents loaded").
Proof.
  apply (createInput_truncates_message sampleLog None "agents loaded").
  reflexivity.
Defined.

(** X20: when the user of a log event is not found, the event is
    persisted as an event without user: the callback's [try] block behaves
    exactly as for the same event with no [userId]. *)
Theorem missing_user_is_logged_without_user
    (env : Env) (ds : Datastore) (data : LogData) (uid : Z)
    (w : World) (prisma : Client) :
  prismaInstance (db w) = Some prisma ->
  userId data = Some uid -> uid <> 0 ->
  findUnique_outcome ds prisma uid = Ok None ->
  persist env ds data w = persist env ds (withUserId None data) w.
Proof.
  intros Hi Hu Hnz Hfind.
  unfold persist, bind. destruct (import_outcome ds); [reflexivity|]. cbn.
  unfold resolveUserId. rewrite Hu. cbn [userId withUserId].
  replace (uid =? 0)%Z with false by (symmetry; apply Z.eqb_neq; exact Hnz).
  unfold lookupUser, bind, onDb, getPrismaClient, lazyProxy_get. cbn.
  rewrite Hi. cbn. rewrite Hi, Hfind. cbn. destruct w as [d b]. reflexivity.
Qed.

Lemma missing_user_is_logged_without_user_witness :
  let data := withUserId (Some 7) sampleLog in
  let w := readyWorld (sink (enabledWorld 1)) in
  persist reachableEnv orphanDatastore data w =
  persist reachableEnv orphanDatastore (withUserId None data) w.
Proof.
  intros data w.
  apply (missing_user_is_logged_without_user reachableEnv orphanDatastore
           data 7 w 0%nat).
  - reflexivity.
  - reflexivity.
  - lia.
  - reflexivity.
Defined.

(** X21: the user lookup is not retried: when it rejects, nothing is
    inserted, the connection is left as it is (no reconnect), and the sink
    handles the error like one of the insertion; a connection error counts
    one failure. *)
Theorem failed_user_lookup_is_not_retried
    (env : Env) (ds : Datastore) (data : LogData) (now uid : Z)
    (w : World) (prisma : Client) (x : Thrown) :
  import_outcome ds = None ->
  prismaInstance (db w) = Some prisma ->
  userId data = Some uid -> uid <> 0 ->
  findUnique_outcome ds prisma uid = Throw x ->
  persist env ds data w = (Throw x, w) /\
  db (snd (immediateCallback env ds data now w)) = db w /\
  (isConnectionError (toError "Unknown" x) = true ->
   dbLoggingRetryCount (sink (snd (immediateCallback env ds data now w))) =
   dbLoggingRetryCount (sink w) + 1) /\
  (isConnectionError (toError "Unknown" x) = false ->
   sink (snd (immediateCallback env ds data now w)) = sink w).
Proof.
  intros Himp Hi Hu Hnz Hfind.
  assert (Hp : persist env ds data w = (Throw x, w)).
  { unfold persist, bind. rewrite Himp. cbn.
    unfold resolveUserId. rewrite Hu.
    replace (uid =? 0)%Z with false by (symmetry; apply Z.eqb_neq; exact Hnz).
    unfold lookupUser, bind, onDb, getPrismaClient, lazyProxy_get. cbn.
    rewrite Hi. cbn. rewrite Hi, Hfind. cbn. now destruct w. }
  split; [exact Hp|].
  unfold immediateCallback, tryCatch. rewrite Hp. unfold onFailure.
  destruct (isConnectionError (toError "Unknown" x)).
  - unfold onSink, bind, getState, setState. cbn.
    destruct (dbLoggingRetryCount (sink w) + 1 >=? MAX_DB_LOGGING_RETRIES)%Z;
      cbn; (split; [reflexivity|]); (split; [reflexivity | discriminate]).
  - cbn. split; [reflexivity|]. split; [discriminate|reflexivity].
Qed.

Lemma failed_user_lookup_is_not_retried_witness :
  let data := withUserId (Some 7) sampleLog in
  let w := readyWorld (sink (enabledWorld 1)) in
  let after := snd (immediateCallback reachableEnv lookupRefusedDatastore
                      data 5000 w) in
  db after = db w /\ dbLoggingRetryCount (sink after) = 2.
Proof.
  intros data w after.
  destruct (failed_user_lookup_is_not_retried reachableEnv lookupRefusedDatastore
              data 5000 7 w 0%nat refusedError)
    as (_ & H1 & H2 & _).
  - reflexivity.
  - reflexivity.
  - reflexivity.
  - lia.
  - reflexivity.
  - split; [exact H1|]. apply H2. reflexivity.
Defined.

End SinkMore.

(** ** The security middleware *)

Section SecurityFacts.
Import Security.

Lemma getHeader_setHeader (n n' v : string) (hs : list (string * string)) :
  getHeader n (setHeader n' v hs) =
  if String.eqb n' n then Some v else getHeader n hs.
Proof.
  induction hs as [|[m w] hs IH]; cbn [setHeader getHeader].
  - reflexivity.
  - destruct (String.eqb_spec m n') as [->|Hmn']; cbn [getHeader].
    + destruct (String.eqb n' n); reflexivity.
    + destruct (String.eqb_spec m n) as [->|Hmn].
      * destruct (String.eqb_spec n' n) as [->|]; [congruence | reflexivity].
      * exact IH.
Qed.

Lemma getHeader_set (n n' v : string) (res : Response) :
  getHeader n (headers (set n' v res)) =
  if String.eqb n' n then Some v else getHeader n (headers res).
Proof. apply getHeader_setHeader. Qed.

(** X22: in production the CORS middleware trusts every origin: whatever
    [ALLOWED_ORIGINS] lists, a request's origin is echoed in
    [Access-Control-Allow-Origin] with credentials allowed, and a request
    without origin gets [*], also with credentials allowed. *)
Theorem cors_production_allows_every_origin
    (ALLOWED_ORIGINS NODE_ENV : option string) (req : Request) (res : Response) :
  isProduction NODE_ENV = true ->
  let hs := headers (response (configureCORS ALLOWED_ORIGINS NODE_ENV req res)) in
  getHeader "Access-Control-Allow-Origin" hs =
    Some (match origin req with
          | Some o => if Text.truthy o then o else "*"
          | None => "*"
          end) /\
  getHeader "Access-Control-Allow-Credentials" hs = Some "true".
Proof.
  intros Hprod hs. subst hs. unfold configureCORS. cbv zeta.
  rewrite Hprod. cbn [orb].
  assert (H : forall r,
            headers (response (if String.eqb (method req) "OPTIONS"
                               then {| response := {| headers := headers r;
                                                      sent := Some 204 |};
                                       calledNext := false |}
                               else {| response := r; calledNext := true |}))
            = headers r) by (intros r; now destruct (String.eqb _ _)).
  rewrite H.
  destruct (origin req) as [o|]; cbn [default]; [destruct (Text.truthy o)|];
    rewrite !getHeader_set; cbn; auto.
Qed.

Lemma cors_production_allows_every_origin_witness :
  let req := {| origin := Some "https://evil.example"; method := "POST" |} in
  let hs := headers (response (configureCORS (Some "https://aionis.world")
                                 (Some "production") req
                                 {| headers := []; sent := None |})) in
  getHeader "Access-Control-Allow-Origin" hs = Some "https://evil.example" /\
  getHeader "Access-Control-Allow-Credentials" hs = Some "true".
Proof.
  intros req hs.
  apply (cors_production_allows_every_origin (Some "https://aionis.world")
           (Some "production") req {| headers := []; sent := None |}).
  reflexivity.
Defined.

(** X23: outside production the middleware allows exactly the listed
    origins: for a request whose origin is in the list it sets
    [Access-Control-Allow-Origin] to that origin and allows credentials; for
    any other request it leaves both headers as they were, and it never
    sends [*]. *)
Theorem cors_outside_production_follows_the_list
    (ALLOWED_ORIGINS NODE_ENV : option string) (req : Request) (res : Response) :
  isProduction NODE_ENV = false ->
  let hs := headers (response (configureCORS ALLOWED_ORIGINS NODE_ENV req res)) in
  let allowed := match origin req with
                 | Some o => Text.truthy o &&
                             listed (allowedOrigins ALLOWED_ORIGINS) o
                 | None => false
                 end in
  (allowed = true ->
     getHeader "Access-Control-Allow-Origin" hs = origin req /\
     getHeader "Access-Control-Allow-Credentials" hs = Some "true") /\
  (allowed = false ->
     getHeader "Access-Control-Allow-Origin" hs =
       getHeader "Access-Control-Allow-Origin" (headers res) /\
     getHeader "Access-Control-Allow-Credentials" hs =
       getHeader "Access-Control-Allow-Credentials" (headers res)).
Proof.
  intros Hprod hs allowed. subst hs allowed. unfold configureCORS. cbv zeta.
  rewrite Hprod. cbn [orb].
  assert (H : forall r,
            headers (response (if String.eqb (method req) "OPTIONS"
                               then {| response := {| headers := headers r;
                                                      sent := Some 204 |};
                                       calledNext := false |}
                               else {| response := r; calledNext := true |}))
            = headers r) by (intros r; now destruct (String.eqb _ _)).
  rewrite H.
  destruct (origin req) as [o|]; cbn [andb];
    [change (default "" (Some o)) with o;
     destruct (Text.truthy o); cbn [andb];
     [destruct (listed (allowedOrigins ALLOWED_ORIGINS) o)|]|];
    rewrite ?getHeader_set; cbn; (split; [intros; try discriminate; auto|]);
    intros; try discriminate; auto.
Qed.

Lemma cors_outside_production_follows_the_list_witness :
  let fresh := {| headers := []; sent := None |} in
  let listedReq := {| origin := Some "https://b.example"; method := "GET" |} in
  let spacedEnv := Some "https://a.example, https://b.example" in
  getHeader "Access-Control-Allow-Origin"
    (headers (response (configureCORS (Some "https://a.example,https://b.example")
                          None listedReq fresh)))
  = Some "https://b.example" /\
  getHeader "Access-Control-Allow-Origin"
    (headers (response (configureCORS spacedEnv None listedReq fresh)))
  = None.
Proof.
  intros fresh listedReq spacedEnv. split.
  - destruct (cors_outside_production_follows_the_list
                (Some "https://a.example,https://b.example") None listedReq fresh
                eq_refl) as [H _].
    apply H. reflexivity.
  - destruct (cors_outside_production_follows_the_list
                spacedEnv None listedReq fresh eq_refl) as [_ H].
    apply H. reflexivity.
Defined.

(** X24: with [securityHeaders] installed before the CORS middleware, as in
    the application, every request leaves with the four security headers and
    the three fixed CORS headers set; a preflight ([OPTIONS]) is answered
    with 204 and goes no further, every other request is passed on with
    nothing sent. *)
Theorem security_chain_sets_headers_and_answers_preflight
    (ALLOWED_ORIGINS NODE_ENV : option string) (req : Request) (res : Response) :
  let h := chain securityHeaders (configureCORS ALLOWED_ORIGINS NODE_ENV) req res in
  let hs := headers (response h) in
  getHeader "X-Content-Type-Options" hs = Some "nosniff" /\
  getHeader "X-Frame-Options" hs = Some "DENY" /\
  getHeader "X-XSS-Protection" hs = Some "1; mode=block" /\
  getHeader "Strict-Transport-Security" hs =
    Some "max-age=31536000; includeSubDomains" /\
  getHeader "Access-Control-Allow-Methods" hs =
    Some "GET, POST, PUT, DELETE, OPTIONS" /\
  getHeader "Access-Control-Allow-Headers" hs =
    Some "Content-Type, Authorization" /\
  getHeader "Access-Control-Max-Age" hs = Some "86400" /\
  (if String.eqb (method req) "OPTIONS"
   then sent (response h) = Some 204 /\ calledNext h = false
   else sent (response h) = sent res /\ calledNext h = true).
Proof.
  intros h hs. subst hs h. unfold chain. cbn [securityHeaders calledNext response].
  unfold configureCORS. cbv zeta.
  set (res0 := set "Strict-Transport-Security" _ _).
  set (res1 := if _ || _ then _ else res0).
  assert (Hs1 : sent res1 = sent res).
  { subst res1 res0. destruct (_ || _); [|reflexivity].
    destruct (match origin req with Some o => Text.truthy o | None => false end);
      [reflexivity|]. now destruct (isProduction NODE_ENV). }
  assert (H1 : forall n,
            String.eqb "Access-Control-Allow-Origin" n = false ->
            String.eqb "Access-Control-Allow-Credentials" n = false ->
            getHeader n (headers res1) = getHeader n (headers res0)).
  { intros n Ha Hc. subst res1. destruct (_ || _); [|reflexivity].
    rewrite getHeader_set, Hc.
    destruct (match origin req with Some o => Text.truthy o | None => false end).
    - now rewrite getHeader_set, Ha.
    - destruct (isProduction NODE_ENV); [|reflexivity].
      now rewrite getHeader_set, Ha. }
  assert (H : forall n,
            getHeader n (headers (response
              (if String.eqb (method req) "OPTIONS"
               then {| response := {| headers := headers
                         (set "Access-Control-Max-Age" "86400"
                           (set "Access-Control-Allow-Headers" "Content-Type, Authorization"
                             (set "Access-Control-Allow-Methods"
                                "GET, POST, PUT, DELETE, OPTIONS" res1)));
                                     sent := Some 204 |};
                       calledNext := false |}
               else {| response :=
                         set "Access-Control-Max-Age" "86400"
                           (set "Access-Control-Allow-Headers" "Content-Type, Authorization"
                             (set "Access-Control-Allow-Methods"
                                "GET, POST, PUT, DELETE, OPTIONS" res1));
                       calledNext := true |}))) =
            getHeader n (headers
              (set "Access-Control-Max-Age" "86400"
                 (set "Access-Control-Allow-Headers" "Content-Type, Authorization"
                    (set "Access-Control-Allow-Methods"
                       "GET, POST, PUT, DELETE, OPTIONS" res1)))))
    by (intros n; now destruct (String.eqb _ _)).
  repeat split.
  1-7: rewrite H, !getHeader_set; cbn;
       try (rewrite H1 by reflexivity; subst res0; rewrite !getHeader_set);
       reflexivity.
  destruct (String.eqb (method req) "OPTIONS"); cbn; auto.
Qed.

End SecurityFacts.

(** ** The usage limiter *)

Section UsageFacts.
Import Usage.

Lemma anonymousPath_answers_once (svc : Services) (ip : string) (req : Request) :
  let h := anonymousPath svc ip req in
  (nextCalls h = 1%nat /\ sent h = None) \/
  (nextCalls h = 0%nat /\
   exists usage, checkAnonymousUsage svc ip = Ok usage /\
                 Anonymous.canUseService usage = false /\
                 sent h = Some {| limitMessage := Anonymous.message usage;
                                  upgradeRequired := false;
                                  signupRequired := true |}).
Proof.
  unfold anonymousPath. destruct (checkAnonymousUsage svc ip) as [usage|x] eqn:E.
  - destruct (Anonymous.canUseService usage) eqn:Hc; cbn.
    + left. auto.
    + right. split; [reflexivity|]. exists usage. auto.
  - left. cbn. auto.
Qed.

(** X25: whatever the token, the secret, the database and the services
    do, [usageLimiter] ends in exactly one of two ways: it calls [next]
    once and sends nothing, or it sends one 429 and does not call [next];
    and it sends the 429 only when a usage check has answered that the
    service cannot be used, so an error of any collaborator lets the request
    through. *)
Theorem usageLimiter_answers_once
    (JWT_SECRET : option string) (svc : Services) (s : Supervisor) (req : Request) :
  let h := usageLimiter JWT_SECRET svc s req in
  ((nextCalls h = 1%nat /\ sent h = None) \/
   (nextCalls h = 0%nat /\ sent h <> None)) /\
  (forall body, sent h = Some body ->
     (exists uid usage,
        checkUserUsage svc uid = Ok usage /\
        canUseService usage = false /\ requiresPayment usage = false /\
        upgradeRequired body = true) \/
     (exists usage,
        checkAnonymousUsage svc (clientIp req) = Ok usage /\
        Anonymous.canUseService usage = false /\
        signupRequired body = true)).
Proof.
  intros h.
  assert (Hanon : forall r,
            let a := anonymousPath svc (clientIp req) r in
            ((nextCalls a = 1%nat /\ sent a = None) \/
             (nextCalls a = 0%nat /\ sent a <> None)) /\
            (forall body, sent a = Some body ->
               (exists uid usage,
                  checkUserUsage svc uid = Ok usage /\
                  canUseService usage = false /\ requiresPayment usage = false /\
                  upgradeRequired body = true) \/
               (exists usage,
                  checkAnonymousUsage svc (clientIp req) = Ok usage /\
                  Anonymous.canUseService usage = false /\
                  signupRequired body = true))).
  { intros r a.
    destruct (anonymousPath_answers_once svc (clientIp req) r)
      as [[Hn Hs]|(Hn & usage & Hu & Hc & Hs)]; fold a in Hn, Hs.
    - split; [left; auto|]. intros body Hb. congruence.
    - split; [right; split; [exact Hn | congruence]|].
      intros body Hb. right. exists usage. rewrite Hs in Hb.
      injection Hb as <-. auto. }
  subst h. unfold usageLimiter. cbv zeta.
  destruct (truthyString (tokenOf (authorization req))) as [token|]; [|apply Hanon].
  destruct (truthyString JWT_SECRET) as [secret|]; [|apply Hanon].
  destruct (verify svc token secret) as [uid|x]; [|apply Hanon].
  destruct (findUserThroughProxy svc s uid) as [[u|]|x]; try apply Hanon.
  destruct (isActive u); [|apply Hanon].
  destruct (checkUserUsage svc (id u)) as [usage|x] eqn:Hu; [|apply Hanon].
  destruct (canUseService usage) eqn:Hc; cbn.
  - split; [left; auto | discriminate].
  - destruct (requiresPayment usage) eqn:Hp; cbn.
    + split; [left; auto | discriminate].
    + split; [right; split; [reflexivity | discriminate]|].
      intros body [= <-]. left. exists (id u), usage. auto.
Qed.

Lemma usageLimiter_answers_once_witness :
  let deny := Ok {| canUseService := false; requiresPayment := false;
                    paymentAmount := None; message := "Quota used" |} in
  let svc := sampleServices deny true None in
  let s := snd (getPrismaClientAsync reachableEnv initialSupervisor) in
  let h := usageLimiter (Some "secret") svc s bearerRequest in
  nextCalls h = 0%nat /\
  exists uid usage,
    checkUserUsage svc uid = Ok usage /\ canUseService usage = false.
Proof.
  intros deny svc s h.
  destruct (usageLimiter_answers_once (Some "secret") svc s bearerRequest)
    as [_ H].
  split; [reflexivity|].
  destruct (H {| limitMessage := "Quota used"; upgradeRequired := true;
                 signupRequired := false |} eq_refl)
    as [(uid & usage & Hu & Hc & _)|(usage & Hu & Hc & _)].
  - exists uid, usage. auto.
  - cbn in Hu. injection Hu as <-. discriminate Hc.
Defined.

(** X26: while the database module has no client, a token is of no use:
    the lookup of the user on the proxy throws, and the request is handled
    exactly like one without token, as an anonymous request. *)
Theorem usageLimiter_ignores_tokens_before_ready
    (JWT_SECRET : option string) (svc : Services) (s : Supervisor) (req : Request) :
  prismaInstance s = None ->
  usageLimiter JWT_SECRET svc s req = anonymousPath svc (clientIp req) req.
Proof.
  intros Hi. unfold usageLimiter. cbv zeta.
  destruct (truthyString (tokenOf (authorization req))) as [token|]; [|reflexivity].
  destruct (truthyString JWT_SECRET) as [secret|]; [|reflexivity].
  destruct (verify svc token secret) as [uid|x]; [|reflexivity].
  unfold findUserThroughProxy, lazyProxy_get. cbn. now rewrite Hi.
Qed.

Lemma usageLimiter_ignores_tokens_before_ready_witness :
  let svc := sampleServices (Throw refusedError) true None in
  let h := usageLimiter (Some "secret") svc (getPrismaClient initialSupervisor)
             bearerRequest in
  h = anonymousPath svc "203.0.113.9" bearerRequest /\ user (request h) = None.
Proof.
  intros svc h. split; [|reflexivity].
  apply (usageLimiter_ignores_tokens_before_ready (Some "secret") svc
           (getPrismaClient initialSupervisor) bearerRequest).
  reflexivity.
Defined.

(** X27: when the token is good and the user is active but the user's
    usage check throws, the request is metered as an anonymous request
    while it keeps the user: [req.userId] and [req.user] stay set and
    [req.usageStatus], when the anonymous check answers, says
    [isAnonymous]. *)
Theorem failed_usage_check_keeps_the_user_on_the_request
    (JWT_SECRET : option string) (svc : Services) (s : Supervisor) (req : Request)
    (token secret : string) (uid : Z) (u : User) (x : Thrown) :
  truthyString (tokenOf (authorization req)) = Some token ->
  truthyString JWT_SECRET = Some secret ->
  verify svc token secret = Ok uid ->
  findUserThroughProxy svc s uid = Ok (Some u) ->
  isActive u = true ->
  checkUserUsage svc (id u) = Throw x ->
  let h := usageLimiter JWT_SECRET svc s req in
  h = anonymousPath svc (clientIp req) (setUser u req) /\
  userId (request h) = Some (id u) /\
  user (request h) = Some u /\
  (forall usage,
     checkAnonymousUsage svc (clientIp req) = Ok usage ->
     Status.isAnonymous <$> usageStatus (request h) = Some true).
Proof.
  intros Ht Hs Hv Hf Ha Hu h.
  assert (E : h = anonymousPath svc (clientIp req) (setUser u req)).
  { subst h. unfold usageLimiter. cbv zeta. now rewrite Ht, Hs, Hv, Hf, Ha, Hu. }
  split; [exact E|]. rewrite E. unfold anonymousPath.
  destruct (checkAnonymousUsage svc (clientIp req)) as [usage|y].
  - destruct (negb (Anonymous.canUseService usage)); cbn; auto.
  - cbn. split; [reflexivity|]. split; [reflexivity|]. intros usage. discriminate.
Qed.

Lemma failed_usage_check_keeps_the_user_on_the_request_witness :
  let svc := sampleServices (Throw refusedError) true None in
  let s := snd (getPrismaClientAsync reachableEnv initialSupervisor) in
  let h := usageLimiter (Some "secret") svc s bearerRequest in
  userId (request h) = Some 7 /\
  Status.isAnonymous <$> usageStatus (request h) = Some true.
Proof.
  intros svc s h.
  destruct (failed_usage_check_keeps_the_user_on_the_request
              (Some "secret") svc s bearerRequest "abc.def.ghi" "secret" 7
              sampleUser refusedError eq_refl eq_refl eq_refl eq_refl eq_refl eq_refl)
    as (_ & H1 & _ & H3).
  split; [exact H1|]. eapply H3. reflexivity.
Defined.




(** X29: a request that the limiter handled as anonymous, and whose
    anonymous check answered, is never billed: [recordUsageAfterResponse]
    calls no payment and records the usage once, as not billed. *)
Theorem anonymous_requests_are_never_billed
    (svc : Services) (ip : string) (req : Request) (usage : Anonymous.Usage) :
  checkAnonymousUsage svc ip = Ok usage ->
  let r := recordUsageAfterResponse svc (request (anonymousPath svc ip req)) in
  payments r = [] /\
  records r = [{| recordedUser := truthyNumber (userId req);
                  recordedIp := truthyString (Some ip);
                  isBilled := false; billedAmount := None |}].
Proof.
  intros Hu r. subst r. unfold anonymousPath. rewrite Hu.
  unfold recordUsageAfterResponse.
  destruct (negb (Anonymous.canUseService usage)); cbn;
    destruct (recordUsage svc _); cbn; auto.
Qed.

Lemma anonymous_requests_are_never_billed_witness :
  let svc := sampleServices (Throw refusedError) true None in
  let r := recordUsageAfterResponse svc
             (request (anonymousPath svc "203.0.113.9" bearerRequest)) in
  payments r = [] /\
  records r = [{| recordedUser := None; recordedIp := Some "203.0.113.9";
                  isBilled := false; billedAmount := None |}].
Proof.
  intros svc r.
  apply (anonymous_requests_are_never_billed svc "203.0.113.9" bearerRequest
           {| Anonymous.canUseService := true;
              Anonymous.message := "Daily limit reached" |}).
  reflexivity.
Defined.

(** X30: for a user whose usage status requires a payment of a non-zero
    amount, [recordUsageAfterResponse] calls [createPaygPayment] once and
    records the usage once as billed with that amount, whether the payment
    went through or threw. *)
Theorem usage_is_recorded_as_billed_whatever_the_payment_does
    (svc : Services) (req : Request) (st : Status.UsageStatus) (uid amount : Z) :
  usageStatus req = Some st ->
  Status.requiresPayment st = true ->
  Status.paymentAmount st = Some amount -> amount <> 0 ->
  userId req = Some uid -> uid <> 0 ->
  let r := recordUsageAfterResponse svc req in
  payments r = [uid] /\
  records r = [{| recordedUser := Some uid;
                  recordedIp := truthyString (Some (Status.ipAddress st));
                  isBilled := true; billedAmount := Some amount |}].
Proof.
  intros Hst Hreq Hamt Hnz Hu Huz r. subst r. unfold recordUsageAfterResponse.
  rewrite Hst, Hreq, Hamt, Hu. cbn.
  replace (amount =? 0)%Z with false by (symmetry; apply Z.eqb_neq; exact Hnz).
  replace (uid =? 0)%Z with false by (symmetry; apply Z.eqb_neq; exact Huz).
  destruct (createPaygPayment svc uid) as [e|]; destruct (recordUsage svc _);
    cbn; split; reflexivity.
Qed.

Lemma usage_is_recorded_as_billed_whatever_the_payment_does_witness :
  let st := {| Status.canUseService := false; Status.requiresPayment := true;
               Status.paymentAmount := Some 500; Status.isAnonymous := false;
               Status.ipAddress := "203.0.113.9" |} in
  let req := setUsageStatus st (setUser sampleUser bearerRequest) in
  let svc := sampleServices (Throw refusedError) true (Some refusedError) in
  let r := recordUsageAfterResponse svc req in
  payments r = [7] /\
  records r = [{| recordedUser := Some 7; recordedIp := Some "203.0.113.9";
                  isBilled := true; billedAmount := Some 500 |}].
Proof.
  intros st req svc r.
  destruct (usage_is_recorded_as_billed_whatever_the_payment_does
              svc req st 7 500 eq_refl eq_refl eq_refl) as (H1 & H2).
  - lia.
  - reflexivity.
  - lia.
  - split; [exact H1 | exact H2].
Defined.

End UsageFacts.
